(** * Cancer: module market (service registry) and API gateway

    A shallow embedding of
      - [src/modules/module-market/backend/server.js]  (module [Market])
      - [src/api-gateway/index.js]                     (module [Gateway])
      - [src/unnamed/part_000], the user service       (module [UserService])
      - the list filters of the market page and of the user page
                                        (modules [MarketUI] and [UserUI])
      - [src/main-app/src/main.js]                     (module [MainApp])
    together with the properties of the registry / gateway core.

    Conventions of the embedding.
      - A JavaScript property that may be missing is an [option]:
        [None] is [undefined].
      - A string is a [string] of bytes, the UTF-8 encoding of the text.
      - [String.prototype.toLowerCase] is a member of the class
        [CaseFolding]: the Unicode tables are not written out, and every
        general statement holds for any folding with the two properties
        of the built-in that the class records. Closed examples are
        evaluated at [asciiFolding], on text without a cased letter
        outside ASCII, where it is the built-in.
      - An exception is the [Throw] of the [result] monad.
      - [console.log] / [console.error] lines are a list of [LogEvent]s.
      - Time stamps of response bodies are left out.
      - An Express application is the ordered stack of the layers added
        to it: a request goes to the first layer that matches it and
        does not call [next()]. *)

From Stdlib Require Import List String Ascii Bool Arith ZArith Lia.
Import ListNotations.
Local Open Scope string_scope.
Local Open Scope list_scope.

Set Implicit Arguments.

(* ================================================================== *)
(** ** JavaScript primitives used by both services *)
(* ================================================================== *)

Module JS.

(** Outcome of an expression that may throw. *)
Inductive result (A : Type) : Type :=
| Ok (a : A)
| Throw (message : string).
Arguments Ok {A} a.
Arguments Throw {A} message.

Definition bind {A B} (r : result A) (k : A -> result B) : result B :=
  match r with
  | Ok a => k a
  | Throw e => Throw e
  end.

Notation "x <- r ;; k" := (bind r (fun x => k))
  (at level 61, r at next level, right associativity).

(** [arr.filter(cb)] where the callback may throw: the first exception
    aborts the whole call. *)
Fixpoint filterM {A} (f : A -> result bool) (l : list A) : result (list A) :=
  match l with
  | [] => Ok []
  | x :: l' =>
      b <- f x ;;
      r <- filterM f l' ;;
      Ok (if b then x :: r else r)
  end.

(** Truthiness of a string value that may be [undefined]. *)
Definition truthy (v : option string) : bool :=
  match v with
  | None => false
  | Some "" => false
  | Some _ => true
  end.

(** Truthiness of a boolean value that may be [undefined]. *)
Definition truthyBool (v : option bool) : bool :=
  match v with
  | Some true => true
  | _ => false
  end.

(** [a === b] for a possibly-undefined string against a string. *)
Definition strictEqStr (v : option string) (s : string) : bool :=
  match v with
  | Some x => String.eqb x s
  | None => false
  end.

(** [a === b] for a possibly-undefined boolean against a boolean. *)
Definition strictEqBool (v : option bool) (b : bool) : bool :=
  match v with
  | Some x => Bool.eqb x b
  | None => false
  end.

(** Template-literal conversion [`${v}`]. *)
Definition toStr (v : option string) : string :=
  match v with
  | Some s => s
  | None => "undefined"
  end.

(** The lower-case form of an ASCII letter; any other byte as it is. *)
Definition lowerAscii (c : ascii) : ascii :=
  let n := nat_of_ascii c in
  if ((65 <=? n) && (n <=? 90))%nat then ascii_of_nat (n + 32) else c.

(** A string with the letters [A]-[Z] folded to [a]-[z] and every other
    byte kept: what a case-insensitive regular expression without the
    [u] flag makes of a literal ASCII pattern, and what
    [String.prototype.toLowerCase] makes of ASCII text. *)
Fixpoint asciiLowerCase (s : string) : string :=
  match s with
  | EmptyString => EmptyString
  | String c s' => String (lowerAscii c) (asciiLowerCase s')
  end.

(** Text of ASCII characters only: every byte is below 128. *)
Fixpoint isAscii (s : string) : bool :=
  match s with
  | EmptyString => true
  | String c s' => (nat_of_ascii c <? 128)%nat && isAscii s'
  end.

(** [String.prototype.toLowerCase]. The built-in folds every cased
    letter of Unicode, by tables that are not written out here. What is
    used of it is that on ASCII text it folds [A]-[Z] and keeps the
    rest, and that only the empty string has an empty lower-case form
    (a character is mapped to one character or more). *)
Class CaseFolding : Type := {
  toLowerCase : string -> string;
  toLowerCase_ascii :
    forall s, isAscii s = true -> toLowerCase s = asciiLowerCase s;
  toLowerCase_nonempty :
    forall s, toLowerCase s = EmptyString -> s = EmptyString
}.

(** The folding of the ASCII letters alone. It is the built-in on text
    that has no cased letter outside ASCII; the concrete examples, whose
    text is of that kind, are evaluated at it. *)
Definition asciiFolding : CaseFolding.
Proof.
  refine {| toLowerCase := asciiLowerCase |}.
  - intros s _. reflexivity.
  - intros s. destruct s; [reflexivity | discriminate].
Defined.

(** [v.toLowerCase()]: a [TypeError] when [v] is [undefined]; the text
    is its [message]. *)
Definition toLowerCaseOf {F : CaseFolding} (v : option string) : result string :=
  match v with
  | Some s => Ok (toLowerCase s)
  | None => Throw "Cannot read properties of undefined (reading 'toLowerCase')"
  end.

(** [Some rest] when [s = p ++ rest]. *)
Fixpoint dropPrefix (p s : string) : option string :=
  match p with
  | EmptyString => Some s
  | String a p' =>
      match s with
      | EmptyString => None
      | String b s' => if Ascii.eqb a b then dropPrefix p' s' else None
      end
  end.

(** [s.startsWith(p)] *)
Definition startsWith (s p : string) : bool :=
  match dropPrefix p s with
  | Some _ => true
  | None => false
  end.

(** [s.includes(sub)] *)
Fixpoint includes (s sub : string) : bool :=
  startsWith s sub ||
  match s with
  | EmptyString => false
  | String _ s' => includes s' sub
  end.

(** [s.replace(pat, '')] with a string pattern: the first occurrence of
    [pat] is removed, and [s] is returned as it is when there is none. *)
Fixpoint replace (s pat : string) : string :=
  match dropPrefix pat s with
  | Some rest => rest
  | None =>
      match s with
      | EmptyString => EmptyString
      | String c s' => String c (replace s' pat)
      end
  end.

End JS.

Import JS.


(* ================================================================== *)
(** ** Data model: module descriptors *)
(* ================================================================== *)

(** [backend] block of a descriptor. *)
Record Backend : Type := mkBackend {
  url : option string;
  prefix : option string
}.

(** [frontend] block of a descriptor. *)
Record Frontend : Type := mkFrontend {
  entry : option string;
  activeRule : option string
}.

(** A module record: the fields of [module.json] and the three fields
    the scanner adds ([path], [hasBackend], [hasFrontend]).  No field is
    checked by the code, so every one of them may be [undefined]; a
    field that is there has the type the descriptor format gives it. *)
Record Module : Type := mkModule {
  name : option string;
  displayName : option string;
  version : option string;
  type : option string;
  description : option string;
  enabled : option bool;
  backend : option Backend;
  frontend : option Frontend;
  path : option string;
  hasBackend : option bool;
  hasFrontend : option bool
}.

(** A descriptor as it stands in the file, before the scanner adds its
    fields. *)
Definition descriptor (n d : option string) (t desc : option string)
    (e : option bool) (b : option Backend) : Module :=
  mkModule n d None t desc e b None None None None.

(* ================================================================== *)
(** ** Module market: [src/modules/module-market/backend/server.js] *)
(* ================================================================== *)

Module Market.

(** *** The descriptor store, as [scanModules] reads it *)

(** What [modulePath/module.json] holds. [Unparsable] stands for every
    way the inner [try] block can throw: [readFileSync] fails,
    [JSON.parse] rejects the text, or the document is [null] and the
    assignment of [module.path] throws. [Parsed] is a JSON object; a
    document that is a bare number, string, boolean or array is not
    modelled. *)
Inductive ModuleJson : Type :=
| Missing
| Unparsable (message : string)
| Parsed (m : Module).

(** One entry of [fs.readdirSync(MODULES_DIR, { withFileTypes: true })]
    with what the scanner probes below it. *)
Record Dirent : Type := mkDirent {
  d_name : string;
  isDirectory : bool;
  moduleJson : ModuleJson;
  backendDir : bool;      (* fs.existsSync(modulePath/backend) *)
  frontendDir : bool      (* fs.existsSync(modulePath/frontend) *)
}.

(** The descriptor store: [readdir] is [Throw] when [readdirSync]
    fails (the directory does not exist, cannot be read). *)
Record FileSystem : Type := mkFS {
  MODULES_DIR : string;
  readdir : result (list Dirent)
}.

Inductive LogEvent : Type :=
| LogScanStart (dir : string)
| LogLoaded (n d : string)
| LogParseError (entryName message : string)
| LogSkipped (entryName : string)
| LogTotal (count : nat)
| LogScanFailed (message : string)
| LogRefresh.

(** [path.join(a, b)] for an absolute [a] and a plain name [b]. *)
Definition join (a b : string) : string := (a ++ "/" ++ b)%string.

(** The three assignments made to a parsed descriptor. *)
Definition annotate (modulePath : string) (e : Dirent) (m : Module) : Module :=
  mkModule (name m) (displayName m) (version m) (type m) (description m)
           (enabled m) (backend m) (frontend m)
           (Some modulePath) (Some (backendDir e)) (Some (frontendDir e)).

(** Body of the [for (const entry of entries)] loop: the records pushed
    and the lines logged by one entry. *)
Definition scanEntry (dir : string) (e : Dirent) : list Module * list LogEvent :=
  if isDirectory e && startsWith (d_name e) "module-" then
    let modulePath := join dir (d_name e) in
    match moduleJson e with
    | Parsed m =>
        let m' := annotate modulePath e m in
        ([m'], [LogLoaded (toStr (name m')) (toStr (displayName m'))])
    | Unparsable msg => ([], [LogParseError (d_name e) msg])
    | Missing => ([], [LogSkipped (d_name e)])
    end
  else ([], []).

Fixpoint scanEntries (dir : string) (es : list Dirent) : list Module * list LogEvent :=
  match es with
  | [] => ([], [])
  | e :: es' =>
      let '(ms1, log1) := scanEntry dir e in
      let '(ms2, log2) := scanEntries dir es' in
      (ms1 ++ ms2, log1 ++ log2)
  end.

(** [scanModules()]: never throws; the outer [catch] logs and the
    function returns what [modules] holds, the empty list when
    [readdirSync] itself failed. *)
Definition scanModules (fs : FileSystem) : list Module * list LogEvent :=
  match readdir fs with
  | Ok entries =>
      let '(ms, log) := scanEntries (MODULES_DIR fs) entries in
      (ms, LogScanStart (MODULES_DIR fs) :: log ++ [LogTotal (List.length ms)])
  | Throw msg =>
      ([], [LogScanStart (MODULES_DIR fs); LogScanFailed msg])
  end.

(** The diagnostics of a scan: its [console.error] lines about a
    descriptor. *)
Definition isDiagnostic (ev : LogEvent) : bool :=
  match ev with
  | LogParseError _ _ => true
  | _ => false
  end.

Definition diagnostics (log : list LogEvent) : list LogEvent :=
  filter isDiagnostic log.

(** *** The registry cache and its HTTP handlers *)

(** [let cachedModules]: the only state of the service. *)
Definition Cache : Type := list Module.

(** [let cachedModules = scanModules();] at process start. *)
Definition init (fs : FileSystem) : Cache := fst (scanModules fs).

(** [req.query] of [GET /api/modules]; a parameter that is not in the
    URL is [undefined]. Repeated or bracketed parameters, which the
    query parser turns into arrays and objects, are not modelled. *)
Record Query : Type := mkQuery {
  q_type : option string;
  q_enabled : option string;
  q_search : option string
}.

(** The value of a property of the [byType] object: a number, or the
    text that [+ 1] makes of a value that is not a number. *)
Inductive Counter : Type :=
| Count (n : nat)
| Text (s : string).

(** The [byType] object: its own properties, in the order in which they
    were first assigned (the order of the JSON text when no key is an
    array index). *)
Definition ByType : Type := list (string * Counter).

Inductive Body : Type :=
| ModuleList (ms : list Module)
| ModuleDetail (m : Module)
| NotFoundBody (message : string)
| ServerErrorBody (message : string)
| RefreshBody (success : bool) (count : nat)
| StatsBody (total enabledCount disabledCount withBackend withFrontend : nat)
            (byType : ByType).

Record Response : Type := mkResponse {
  status : nat;
  body : Body
}.

(** The callback of the [search] filter. *)
Definition searchCallback {F : CaseFolding} (searchLower : string) (m : Module)
  : result bool :=
  n <- toLowerCaseOf (name m) ;;
  if includes n searchLower then Ok true else
  d <- toLowerCaseOf (displayName m) ;;
  if includes d searchLower then Ok true else
  if truthy (description m) then
    s <- toLowerCaseOf (description m) ;;
    Ok (includes s searchLower)
  else Ok false.

(** The three filters of [GET /api/modules], in the order of the code. *)
Definition filterModules {F : CaseFolding} (q : Query) (cache : Cache)
  : result (list Module) :=
  let modules := cache in
  let modules :=
    if truthy (q_type q)
    then filter (fun m => strictEqStr (type m) (toStr (q_type q))) modules
    else modules in
  let modules :=
    match q_enabled q with
    | Some e =>
        let isEnabled := String.eqb e "true" in
        filter (fun m => strictEqBool (enabled m) isEnabled) modules
    | None => modules
    end in
  if truthy (q_search q)
  then filterM (searchCallback (toLowerCase (toStr (q_search q)))) modules
  else Ok modules.

(** [GET /api/modules]; an exception of the handler reaches the error
    middleware, which answers 500 with the message. *)
Definition getModules {F : CaseFolding} (q : Query) (cache : Cache) : Response :=
  match filterModules q cache with
  | Ok ms => mkResponse 200 (ModuleList ms)
  | Throw msg => mkResponse 500 (ServerErrorBody msg)
  end.

(** [GET /api/modules/:name] *)
Definition getModule (n : string) (cache : Cache) : Response :=
  match find (fun m => strictEqStr (name m) n) cache with
  | Some m => mkResponse 200 (ModuleDetail m)
  | None => mkResponse 404 (NotFoundBody ("模块 " ++ n ++ " 不存在")%string)
  end.

(** The own property [k] of the object, if it has one. *)
Fixpoint own (k : string) (byType : ByType) : option Counter :=
  match byType with
  | [] => None
  | (k', v) :: rest => if String.eqb k' k then Some v else own k rest
  end.

(** The assignment of an own property: in place when the object has
    the property, at the end when it is new. *)
Fixpoint setOwn (k : string) (v : Counter) (byType : ByType) : ByType :=
  match byType with
  | [] => [(k, v)]
  | (k', v') :: rest =>
      if String.eqb k' k then (k', v) :: rest else (k', v') :: setOwn k v rest
  end.

(** The methods every object literal inherits from [Object.prototype]. *)
Definition prototypeMethods : list string :=
  [ "__defineGetter__"; "__defineSetter__"; "hasOwnProperty";
    "__lookupGetter__"; "__lookupSetter__"; "isPrototypeOf";
    "propertyIsEnumerable"; "toString"; "valueOf"; "toLocaleString" ].

(** What [byType[k]] reads through the prototype chain when the object
    has no property [k] of its own, as the text it is under [+]: the
    source text of an inherited function, and [[object Object]] for the
    prototype itself, which [__proto__] reads. [None] is [undefined]. *)
Definition inherited (k : string) : option string :=
  if String.eqb k "constructor" then Some "function Object() { [native code] }"
  else if String.eqb k "__proto__" then Some "[object Object]"
  else if existsb (String.eqb k) prototypeMethods
       then Some ("function " ++ k ++ "() { [native code] }")%string
  else None.

(** [stats.byType[type] = (stats.byType[type] || 0) + 1] on the object
    literal [{}]. A number is incremented and a missing key starts at 1.
    A key that names a property of [Object.prototype] reads the
    inherited value, which is truthy and not a number: [+ 1] appends
    the character [1] to its text, and the text is stored under the key,
    except for [__proto__], whose assignment of a string is ignored. *)
Definition bump (t : string) (byType : ByType) : ByType :=
  match own t byType with
  | Some (Count n) => setOwn t (Count (n + 1)) byType
  | Some (Text s) =>
      if truthy (Some s) then setOwn t (Text (s ++ "1")%string) byType
      else setOwn t (Count 1) byType
  | None =>
      match inherited t with
      | Some s =>
          if String.eqb t "__proto__" then byType
          else setOwn t (Text (s ++ "1")%string) byType
      | None => setOwn t (Count 1) byType
      end
  end.

Definition typeKey (m : Module) : string :=
  if truthy (type m) then toStr (type m) else "unknown".

Definition countByType (cache : Cache) : ByType :=
  fold_left (fun acc m => bump (typeKey m) acc) cache [].

(** [GET /api/stats] *)
Definition getStats (cache : Cache) : Response :=
  mkResponse 200
    (StatsBody
       (List.length cache)
       (List.length (filter (fun m => truthyBool (enabled m)) cache))
       (List.length (filter (fun m => negb (truthyBool (enabled m))) cache))
       (List.length (filter (fun m => truthyBool (hasBackend m)) cache))
       (List.length (filter (fun m => truthyBool (hasFrontend m)) cache))
       (countByType cache)).

(** [POST /api/refresh] *)
Definition postRefresh (fs : FileSystem) (cache : Cache)
  : Cache * Response * list LogEvent :=
  let '(ms, log) := scanModules fs in
  (ms, mkResponse 200 (RefreshBody true (List.length ms)), LogRefresh :: log).

Definition cacheAfterRefresh (fs : FileSystem) (cache : Cache) : Cache :=
  fst (fst (postRefresh fs cache)).

Definition refreshResponse (fs : FileSystem) (cache : Cache) : Response :=
  snd (fst (postRefresh fs cache)).

(** [current()]: what the handlers read. *)
Definition current (cache : Cache) : list Module := cache.

End Market.

(* ================================================================== *)
(** ** API gateway: [src/api-gateway/index.js] *)
(* ================================================================== *)

Module Gateway.

(** *** Requests, responses and the environment *)

(** Request methods that reach the routes. [OPTIONS] is left out: the
    [cors()] middleware answers a preflight itself. *)
Inductive Method : Type := GET | HEAD | POST | PUT | PATCH | DELETE.

(** An inbound request: [pathname] is the path of the URL, [search] its
    query string (empty, or from the question mark on), both as they
    stand in the request line, percent-encoded. A request whose body the
    body parsers reject is not modelled. *)
Record Request : Type := mkRequest {
  method : Method;
  pathname : string;
  search : string
}.

(** [req.originalUrl] *)
Definition originalUrl (req : Request) : string :=
  (pathname req ++ search req)%string.

(** The request the proxy sends: to [f_target], with the rewritten path
    and the headers set in [onProxyReq]. *)
Record Forwarded : Type := mkForwarded {
  f_method : Method;
  f_target : string;
  f_path : string;
  f_headers : list (string * string)
}.

(** What the backend does with a forwarded request: it answers, or the
    transport fails (connection refused, reset, timeout, ...) and the
    proxy raises its error event with the message. *)
Inductive Upstream : Type :=
| Answered (status : nat) (payload : string)
| TransportError (message : string).

(** What the gateway reads from outside: its environment variable, the
    result of [axios.get(MODULE_MARKET_URL/api/modules, {timeout: 5000})]
    ([Throw] for a timeout, a refused connection, a status outside 2xx;
    [Ok] with [response.data], taken to be an array of module objects)
    and the backends. *)
Record Env : Type := mkEnv {
  MODULE_MARKET_URL : string;
  fetch : result (list Module);
  upstream : Forwarded -> Upstream
}.

Inductive Body : Type :=
| HealthBody
| StatusBody (moduleMarketUrl : string)
| NotFoundBody (message : string)
| BadGatewayBody (message details : string)
| FinalHandlerBody
| UpstreamBody (payload : string)
| NoBody.                  (* the answer to a HEAD request: headers only *)

Record Response : Type := mkResponse {
  status : nat;
  body : Body
}.

(** The answer to one request, with the request sent to a backend when
    one was sent. *)
Record Handled : Type := mkHandled {
  forwarded : option Forwarded;
  response : Response
}.

(** What becomes of a request: it is answered, or an exception that
    nothing catches ends the process, with the [code] of the error, and
    the request is left without an answer. *)
Inductive Reply : Type :=
| Served (h : Handled)
| Crashed (code : string).

(** The request sent to a backend, when the request was answered and
    one was sent. *)
Definition forwardedBy (r : Reply) : option Forwarded :=
  match r with
  | Served h => forwarded h
  | Crashed _ => None
  end.

Definition respond (s : nat) (b : Body) : Handled :=
  mkHandled None (mkResponse s b).

(** The body that goes out: none when the request is a HEAD. *)
Definition bodyFor (m : Method) (b : Body) : Body :=
  match m with
  | HEAD => NoBody
  | _ => b
  end.

(** [res.status(s).json(b)]: Express ends the answer to a HEAD request
    without the body. *)
Definition send (req : Request) (s : nat) (b : Body) : Handled :=
  respond s (bodyFor (method req) b).

(** *** The Express application: an ordered stack of layers *)

(** The handlers this application registers. *)
Inductive Handler : Type :=
| Cors                     (* cors() *)
| JsonBody                 (* bodyParser.json() *)
| UrlencodedBody           (* bodyParser.urlencoded({ extended: true }) *)
| Logger                   (* the logging middleware *)
| Health                   (* GET /health *)
| Status                   (* GET /api/gateway/status *)
| NotFound                 (* the 404 middleware *)
| ErrorHandler             (* the four-argument error middleware *)
| Proxy (pfx target : string) (moduleName : option string).
                           (* createProxyMiddleware({ target, pathRewrite, onError, onProxyReq }) *)

(** A layer of the router's stack, in the three ways the code adds one. *)
Inductive Layer : Type :=
| Use (h : Handler)                      (* app.use(fn) *)
| UseAt (mount : string) (h : Handler)   (* app.use(path, fn) *)
| Get (route : string) (h : Handler).    (* app.get(path, fn) *)

(** A mount path without its trailing slash: Express matches
    [/api/x/] as it matches [/api/x]. *)
Fixpoint stripSlash (p : string) : string :=
  match p with
  | EmptyString => EmptyString
  | String c EmptyString => if Ascii.eqb c "/" then EmptyString else p
  | String c p' => String c (stripSlash p')
  end.

(** [app.use(mount, fn)]: the layer is entered when the path starts with
    the mount path and the match ends at a segment boundary. Routing is
    case-insensitive (the application never enables
    'case sensitive routing'): the regular expression of the layer has
    the [i] flag, under which a letter [A]-[Z] of the path and the same
    letter in the other case match, and no other two bytes do. Mount
    paths are literal: the pattern characters of the path syntax are not
    modelled. *)
Definition mountMatches (mount path : string) : bool :=
  match dropPrefix (asciiLowerCase (stripSlash mount)) (asciiLowerCase path) with
  | Some EmptyString => true
  | Some (String c _) => Ascii.eqb c "/"
  | None => false
  end.

(** [app.get(route, fn)]: the whole path, with or without a trailing
    slash ('strict routing' is off). *)
Definition routeMatches (route path : string) : bool :=
  String.eqb (asciiLowerCase path) (asciiLowerCase route) ||
  String.eqb (asciiLowerCase path) (asciiLowerCase route ++ "/")%string.

Definition isGetOrHead (m : Method) : bool :=
  match m with
  | GET | HEAD => true
  | _ => false
  end.

Definition layerMatches (l : Layer) (req : Request) : bool :=
  match l with
  | Use _ => true
  | UseAt mount _ => mountMatches mount (pathname req)
  | Get route _ => isGetOrHead (method req) && routeMatches route (pathname req)
  end.

Definition handlerOf (l : Layer) : Handler :=
  match l with
  | Use h | UseAt _ h | Get _ h => h
  end.

(** *** The handlers *)

(** [pathRewrite: (path, req) => path.replace(prefix, '')]. The proxy
    middleware (of the versions that take [onError] and [onProxyReq] as
    options) rewrites [req.originalUrl], the URL before Express removes
    the mount path from it. *)
Definition pathRewrite (pfx path : string) : string := replace path pfx.

(** A byte that [setHeader] takes in a header value. Node refuses a
    value with a character outside tab, [0x20]-[0x7e] and [0x80]-[0xff];
    in UTF-8 the characters up to [0xff] are the bytes below 128 and the
    two-byte sequences led by [0xc2] and [0xc3], so a value passes when
    each of its bytes is a tab, in 32-126 or in 128-195. *)
Definition validHeaderByte (c : ascii) : bool :=
  let n := nat_of_ascii c in
  ((n =? 9) || ((32 <=? n) && (n <=? 126)) || ((128 <=? n) && (n <=? 195)))%nat.

Fixpoint validHeaderValue (s : string) : bool :=
  match s with
  | EmptyString => true
  | String c s' => validHeaderByte c && validHeaderValue s'
  end.

(** The two headers a forwarded request carries for a module. *)
Definition gatewayHeaders (n : string) : list (string * string) :=
  [("X-Gateway", "Cancer-API-Gateway"); ("X-Module-Name", n)].

(** [onProxyReq]: the two [setHeader] calls on the request to the
    backend. [setHeader] throws a [TypeError] for the value [undefined]
    and for a value with a character it refuses; [Throw] carries the
    [code] of the error. *)
Definition onProxyReq (moduleName : option string)
  : result (list (string * string)) :=
  match moduleName with
  | None => Throw "ERR_HTTP_INVALID_HEADER_VALUE"
  | Some n =>
      if validHeaderValue n then Ok (gatewayHeaders n)
      else Throw "ERR_INVALID_CHAR"
  end.

(** The proxy middleware of one module. The request is rewritten and
    [onProxyReq] sets the two headers before anything is sent; the
    proxy library calls it from an event of the outgoing request, where
    nothing catches what it throws, so a throw ends the process.
    Otherwise the request is sent, the answer of the backend is passed
    on, and a transport error is answered by [onError]. *)
Definition proxy (env : Env) (pfx target : string) (moduleName : option string)
    (req : Request) : Reply :=
  let newPath := pathRewrite pfx (originalUrl req) in
  match onProxyReq moduleName with
  | Throw code => Crashed code
  | Ok headers =>
      let fwd := mkForwarded (method req) target newPath headers in
      match upstream env fwd with
      | Answered s payload =>
          Served (mkHandled (Some fwd)
                    (mkResponse s (bodyFor (method req) (UpstreamBody payload))))
      | TransportError msg =>
          Served (mkHandled (Some fwd)
                    (mkResponse 502
                       (bodyFor (method req)
                          (BadGatewayBody
                             ("无法连接到服务: " ++ toStr moduleName)%string msg))))
      end
  end.

(** The request the proxy of a route sends for a module of name [n]:
    to the target, with the rewritten URL and the two headers. *)
Definition outgoing (pfx target n : string) (req : Request) : Forwarded :=
  mkForwarded (method req) target (pathRewrite pfx (originalUrl req))
    (gatewayHeaders n).

(** The 404 middleware. *)
Definition runNotFound (req : Request) : Handled :=
  send req 404 (NotFoundBody ("路由 " ++ originalUrl req ++ " 不存在")%string).

(** A handler ends the request, or calls [next()]. *)
Inductive Outcome : Type :=
| Next
| Done (r : Reply).

Definition runHandler (env : Env) (h : Handler) (req : Request) : Outcome :=
  match h with
  | Cors | JsonBody | UrlencodedBody | Logger => Next
  | Health => Done (Served (send req 200 HealthBody))
  | Status => Done (Served (send req 200 (StatusBody (MODULE_MARKET_URL env))))
  | NotFound => Done (Served (runNotFound req))
  | ErrorHandler => Next      (* skipped: no error is pending *)
  | Proxy pfx target moduleName => Done (proxy env pfx target moduleName req)
  end.

(** The router: the layers are tried in the order they were added; the
    first one that matches and ends the request is the last one tried.
    A request that no layer answers gets the default 404 of Express. *)
Fixpoint dispatch (env : Env) (stack : list Layer) (req : Request) : Reply :=
  match stack with
  | [] => Served (send req 404 FinalHandlerBody)
  | l :: rest =>
      if layerMatches l req then
        match runHandler env (handlerOf l) req with
        | Done r => r
        | Next => dispatch env rest req
        end
      else dispatch env rest req
  end.

(** *** Building the application *)

(** The layers added while the file is loaded, top to bottom. *)
Definition baseApp : list Layer :=
  [ Use Cors; Use JsonBody; Use UrlencodedBody; Use Logger;
    Get "/health" Health;
    Get "/api/gateway/status" Status;
    Use NotFound;
    Use ErrorHandler ].

(** [getDefaultModules()] *)
Definition getDefaultModules : list Module :=
  [ descriptor (Some "module-market") None None None None
      (Some (mkBackend (Some "http://localhost:3001") (Some "/api/module-market")));
    descriptor (Some "module-user") None None None None
      (Some (mkBackend (Some "http://localhost:3002") (Some "/api/user"))) ].

(** [fetchModulesFromMarket()] *)
Definition fetchModulesFromMarket (env : Env) : list Module :=
  match fetch env with
  | Ok data => data
  | Throw _ => getDefaultModules
  end.

(** Body of [modules.forEach(module => ...)] in [setupDynamicRoutes]. *)
Definition registerModule (app : list Layer) (m : Module) : list Layer :=
  match backend m with
  | Some b =>
      if truthy (url b) then
        let pfx := if truthy (prefix b) then toStr (prefix b)
                   else ("/api/" ++ toStr (name m))%string in
        let targetUrl := toStr (url b) in
        app ++ [UseAt pfx (Proxy pfx targetUrl (name m))]
      else app
  | None => app
  end.

(** [setupDynamicRoutes()] *)
Definition setupDynamicRoutes (env : Env) (app : list Layer) : list Layer :=
  fold_left registerModule (fetchModulesFromMarket env) app.

(** The running gateway. *)
Record State : Type := mkState {
  app : list Layer;
  listening : bool
}.

Inductive LogEvent : Type :=
| LogRefreshing.

(** [startGateway()]: the routes are set up on the application as the
    file has loaded it, then the server listens. *)
Definition startGateway (env : Env) : State :=
  mkState (setupDynamicRoutes env baseApp) true.

(** The callback of [setInterval(..., 60000)]: one log line. *)
Definition tick (env : Env) (g : State) : State * list LogEvent :=
  (g, [LogRefreshing]).

(** The timer firing again and again, each time in the environment of
    the moment. *)
Fixpoint ticks (envs : list Env) (g : State) : State :=
  match envs with
  | [] => g
  | env :: envs' => ticks envs' (fst (tick env g))
  end.

(** The gateway answering a request. *)
Definition handle (env : Env) (g : State) (req : Request) : Reply :=
  dispatch env (app g) req.

(** *** The route table held by the application *)

Record RouteRule : Type := mkRoute {
  r_prefix : string;
  targetBaseUrl : string;
  moduleName : option string
}.

Definition routeOf (l : Layer) : list RouteRule :=
  match l with
  | UseAt mount (Proxy _ target n) => [mkRoute mount target n]
  | _ => []
  end.

(** The proxy routes of a stack, in the order they were added. *)
Definition routeTable (stack : list Layer) : list RouteRule :=
  flat_map routeOf stack.

Definition proxyLayer (r : RouteRule) : Layer :=
  UseAt (r_prefix r) (Proxy (r_prefix r) (targetBaseUrl r) (moduleName r)).

End Gateway.

(* ================================================================== *)
(** ** The specification's own words

    Definitions that follow the sentences of the specification, to be
    compared with the definitions above, which follow the code. *)
(* ================================================================== *)

Module Spec.

Import Market Gateway.

(** §6: [name] and [displayName] are the required fields of a
    descriptor. *)
Definition hasRequiredFields (m : Module) : bool :=
  match name m, displayName m with
  | Some _, Some _ => true
  | _, _ => false
  end.

(** The entries the scanner looks at: the immediate subdirectories that
    follow the naming convention. *)
Definition scanned (e : Dirent) : bool :=
  isDirectory e && startsWith (d_name e) "module-".

(** §4.1: a valid descriptor parses and has its required fields. *)
Definition validDescriptor (e : Dirent) : bool :=
  scanned e &&
  match moduleJson e with
  | Parsed m => hasRequiredFields m
  | _ => false
  end.

(** §4.1: an invalid descriptor is present but malformed, or lacks a
    required field. *)
Definition invalidDescriptor (e : Dirent) : bool :=
  scanned e &&
  match moduleJson e with
  | Parsed m => negb (hasRequiredFields m)
  | Unparsable _ => true
  | Missing => false
  end.

(** What the code tells apart instead: a descriptor that parses, and
    one that does not. *)
Definition parsedDescriptor (e : Dirent) : bool :=
  scanned e &&
  match moduleJson e with
  | Parsed _ => true
  | _ => false
  end.

Definition unparsableDescriptor (e : Dirent) : bool :=
  scanned e &&
  match moduleJson e with
  | Unparsable _ => true
  | _ => false
  end.

(** §4.2: [refresh()] with rollback: a scan that cannot read the
    descriptor store is a discovery error, and leaves the snapshot as it
    was. *)
Definition refreshWithRollback (fs : FileSystem) (cache : Cache)
  : Cache * result nat :=
  match readdir fs with
  | Ok _ => let ms := fst (scanModules fs) in (ms, Ok (List.length ms))
  | Throw e => (cache, Throw e)
  end.

(** §4.3: case-insensitive substring match: the field, with the case
    of its letters folded, holds the needle, folded as well. *)
Definition ciSubstring {F : CaseFolding} (needle field : string) : Prop :=
  exists a b : string,
    toLowerCase field = (a ++ toLowerCase needle ++ b)%string.

(** Two bytes that are equal, or the upper-case and the lower-case form
    of one of the letters [A]-[Z]: code [n] and code [n + 32] for [n]
    from 65 to 90. *)
Definition sameLetter (c d : ascii) : bool :=
  let m := nat_of_ascii c in
  let n := nat_of_ascii d in
  ((m =? n) ||
   ((65 <=? m) && (m <=? 90) && (n =? m + 32)) ||
   ((65 <=? n) && (n <=? 90) && (m =? n + 32)))%nat.

(** Two strings that differ at most in the case of their ASCII
    letters. *)
Fixpoint sameUpToCase (s t : string) : bool :=
  match s, t with
  | EmptyString, EmptyString => true
  | String c s', String d t' => sameLetter c d && sameUpToCase s' t'
  | _, _ => false
  end.

(** §4.3: the three filters, each applying when its parameter is given
    (for [type] and [search]: a non-empty string). *)
Definition typeFilter (q : Query) (m : Module) : Prop :=
  forall t, q_type q = Some t -> t <> "" -> type m = Some t.

Definition enabledFilter (q : Query) (m : Module) : Prop :=
  forall e, q_enabled q = Some e -> enabled m = Some (String.eqb e "true").

Definition searchFilter {F : CaseFolding} (q : Query) (m : Module) : Prop :=
  forall s, q_search q = Some s -> s <> "" ->
    (exists n, name m = Some n /\ ciSubstring s n) \/
    (exists d, displayName m = Some d /\ ciSubstring s d) \/
    (exists d, description m = Some d /\ ciSubstring s d).

(** The three filters as boolean tests on a record. *)
Definition typeTest (q : Query) (m : Module) : bool :=
  if truthy (q_type q) then strictEqStr (type m) (toStr (q_type q)) else true.

Definition enabledTest (q : Query) (m : Module) : bool :=
  match q_enabled q with
  | Some e => strictEqBool (enabled m) (String.eqb e "true")
  | None => true
  end.

Definition fieldTest {F : CaseFolding} (needle : string) (field : option string)
  : bool :=
  match field with
  | Some s => includes (toLowerCase s) needle
  | None => false
  end.

Definition searchTest {F : CaseFolding} (q : Query) (m : Module) : bool :=
  if truthy (q_search q) then
    let needle := toLowerCase (toStr (q_search q)) in
    fieldTest needle (name m) || fieldTest needle (displayName m) ||
    fieldTest needle (description m)
  else true.

(** §6: the three states of the optional [enabled] field. *)
Definition enabledTrue (m : Module) : bool :=
  match enabled m with Some true => true | _ => false end.

Definition enabledFalse (m : Module) : bool :=
  match enabled m with Some false => true | _ => false end.

Definition enabledOmitted (m : Module) : bool :=
  match enabled m with None => true | _ => false end.

(** §4.4: a field of the [backend] block is present when it holds a
    non-empty string. *)
Definition present (v : option string) : Prop :=
  exists s, v = Some s /\ s <> "".

Definition hasBackendUrl (m : Module) : bool :=
  match backend m with
  | Some b => truthy (url b)
  | None => false
  end.

(** §4.4: the rule derived from a descriptor with a backend URL. *)
Definition ruleOf (m : Module) : list RouteRule :=
  match backend m with
  | Some b =>
      match url b with
      | Some u =>
          if String.eqb u "" then []
          else [mkRoute
                  (match prefix b with
                   | Some p => if String.eqb p "" then ("/api/" ++ toStr (name m))%string else p
                   | None => ("/api/" ++ toStr (name m))%string
                   end)
                  u (name m)]
      | None => []
      end
  | None => []
  end.

(** §4.4: [build(snapshot) -> RouteTable]. *)
Definition build (snapshot : list Module) : list RouteRule :=
  flat_map ruleOf snapshot.

(** §4.4 step 3: longest-prefix match over the route table (the first
    of the longest, when two rules have the same length). *)
Fixpoint longestPrefixMatch (table : list RouteRule) (p : string)
  : option RouteRule :=
  match table with
  | [] => None
  | r :: rest =>
      if mountMatches (r_prefix r) p then
        match longestPrefixMatch rest p with
        | Some r' =>
            if (String.length (r_prefix r) <? String.length (r_prefix r'))%nat
            then Some r' else Some r
        | None => Some r
        end
      else longestPrefixMatch rest p
  end.

(** §4.4 step 2: the periodic refresh, which publishes the candidate
    table when the fetch succeeds and keeps the active one otherwise. *)
Definition periodicRefresh (env : Env) (active : list RouteRule)
  : list RouteRule :=
  match fetch env with
  | Ok snapshot => build snapshot
  | Throw _ => active
  end.

(** §6: the two endpoints the gateway answers itself. *)
Definition ownEndpoint (req : Request) : bool :=
  isGetOrHead (method req) &&
  (routeMatches "/health" (pathname req) ||
   routeMatches "/api/gateway/status" (pathname req)).

(** The first rule of a table whose prefix matches a path. *)
Definition firstMatch (table : list RouteRule) (p : string)
  : option RouteRule :=
  find (fun r => mountMatches (r_prefix r) p) table.

End Spec.

(* ================================================================== *)
(** ** Concrete inputs used by the examples below *)
(* ================================================================== *)

Module Fixture.

Import Market Gateway.

(** The registry entry of the specification's example. *)
Definition moduleX : Module :=
  descriptor (Some "module-x") (Some "Module X") (Some "business") None
    (Some true) (Some (mkBackend (Some "http://x:9000") (Some "/api/x"))).

(** A module that declares the shorter prefix [/api]. *)
Definition moduleA : Module :=
  descriptor (Some "module-a") (Some "Module A") (Some "core") None
    (Some true) (Some (mkBackend (Some "http://a:8000") (Some "/api"))).

(** A second, healthy module. *)
Definition moduleY : Module :=
  descriptor (Some "module-y") (Some "Module Y") (Some "tool")
    (Some "Reporting Tools") (Some false)
    (Some (mkBackend (Some "http://y:9100") None)).

(** A descriptor that leaves [enabled] out. *)
Definition moduleNoEnabled : Module :=
  descriptor (Some "module-plain") (Some "Plain") (Some "tool") None None None.

(** A descriptor that parses but has no [displayName]. *)
Definition moduleNoDisplayName : Module :=
  descriptor (Some "module-bare") None None None None None.

(** Two descriptors with one name. *)
Definition dupFirst : Module :=
  descriptor (Some "module-dup") (Some "First") None None (Some true) None.

Definition dupSecond : Module :=
  descriptor (Some "module-dup") (Some "Second") None None (Some false) None.

(** A descriptor without a [name], with a backend. *)
Definition moduleNameless : Module :=
  descriptor None (Some "Nameless") None None (Some true)
    (Some (mkBackend (Some "http://n:9200") (Some "/api/n"))).

(** Descriptors whose [type] names a property of [Object.prototype]. *)
Definition moduleProto : Module :=
  descriptor (Some "module-p") (Some "P") (Some "__proto__") None None None.

Definition moduleCtor : Module :=
  descriptor (Some "module-c") (Some "C") (Some "constructor") None None None.

Definition dirent (n : string) (mj : ModuleJson) : Dirent :=
  mkDirent n true mj true false.

Definition root : string := "/srv/cancer/modules".

(** A store with one valid descriptor, one that lacks a required field
    and one that is malformed. *)
Definition mixedEntries : list Dirent :=
  [ dirent "module-x" (Parsed moduleX);
    dirent "module-bare" (Parsed moduleNoDisplayName);
    dirent "module-broken" (Unparsable "Unexpected token } in JSON") ].

Definition mixedStore : FileSystem := mkFS root (Ok mixedEntries).

(** A store with one valid descriptor and one that lacks a required
    field. *)
Definition bareEntries : list Dirent :=
  [ dirent "module-x" (Parsed moduleX);
    dirent "module-bare" (Parsed moduleNoDisplayName) ].

Definition bareStore : FileSystem := mkFS root (Ok bareEntries).

(** A store in which two directories describe a module of one name. *)
Definition dupEntries : list Dirent :=
  [ dirent "module-dup-1" (Parsed dupFirst);
    dirent "module-dup-2" (Parsed dupSecond) ].

Definition dupStore : FileSystem := mkFS root (Ok dupEntries).

(** A store whose directory cannot be read. *)
Definition brokenStore : FileSystem :=
  mkFS root (Throw "ENOENT: no such file or directory, scandir").

Definition sampleCache : Cache := [moduleX; moduleY; moduleNoEnabled].

Definition everyBackendUp (f : Forwarded) : Upstream := Answered 200 "ok".

(** Module X refuses connections; every other backend answers. *)
Definition backendXDown (f : Forwarded) : Upstream :=
  if String.eqb (f_target f) "http://x:9000"
  then TransportError "connect ECONNREFUSED x:9000"
  else Answered 200 "ok".

Definition marketUrl : string := "http://localhost:3001".

(** The registry serves the example entry. *)
Definition envX : Env := mkEnv marketUrl (Ok [moduleX]) everyBackendUp.

(** The registry serves a module at [/api] before one at [/api/x]. *)
Definition envOverlap : Env :=
  mkEnv marketUrl (Ok [moduleA; moduleX]) everyBackendUp.

(** The registry serves X and Y; the backend of X is down. *)
Definition envXDown : Env :=
  mkEnv marketUrl (Ok [moduleX; moduleY]) backendXDown.

(** The registry cannot be reached. *)
Definition envMarketDown : Env :=
  mkEnv marketUrl (Throw "connect ECONNREFUSED 127.0.0.1:3001") everyBackendUp.

(** The hardcoded fallback, as a route table. *)
Definition defaultTable : list RouteRule :=
  [ mkRoute "/api/module-market" "http://localhost:3001" (Some "module-market");
    mkRoute "/api/user" "http://localhost:3002" (Some "module-user") ].

(** The registry serves module-x at [/api/x] before a module at
    [/api]. *)
Definition envLongestFirst : Env :=
  mkEnv marketUrl (Ok [moduleX; moduleA]) everyBackendUp.

(** The registry serves a module without a name. *)
Definition envNameless : Env :=
  mkEnv marketUrl (Ok [moduleNameless]) everyBackendUp.

Definition getItemsX : Request := mkRequest GET "/api/x/items" "".
Definition getItemsY : Request := mkRequest GET "/api/module-y/items" "".
Definition getUsers : Request := mkRequest GET "/api/user/users" "".
Definition getUnknown : Request := mkRequest GET "/api/unknown/items" "".

End Fixture.

(* ================================================================== *)
(** ** User service: [src/unnamed/part_000] *)
(* ================================================================== *)

Module UserService.

Local Open Scope Z_scope.

(** A user of the in-memory store. Every user the service creates has
    string fields; [updatedAt] is set by the first update. *)
Record User : Type := mkUser {
  id : string;
  username : string;
  name : string;
  email : string;
  role : string;
  status : string;
  createdAt : string;
  updatedAt : option string
}.

(** [let users]: the state of the service. *)
Definition Users : Type := list User.

(** The four users the file starts with; the identifiers are the
    results of the four [uuidv4()] calls. *)
Definition initialUsers (id1 id2 id3 id4 : string) : Users :=
  [ mkUser id1 "admin" "管理员" "admin@cancer.com" "admin" "active"
      "2024-01-01T00:00:00.000Z" None;
    mkUser id2 "user1" "张三" "zhangsan@cancer.com" "user" "active"
      "2024-01-15T00:00:00.000Z" None;
    mkUser id3 "user2" "李四" "lisi@cancer.com" "user" "active"
      "2024-02-01T00:00:00.000Z" None;
    mkUser id4 "user3" "王五" "wangwu@cancer.com" "user" "inactive"
      "2024-02-15T00:00:00.000Z" None ].

(** [req.body] of [POST /api/users] and [PUT /api/users/:id]; a field
    that is given is a string. *)
Record UserInput : Type := mkInput {
  in_username : option string;
  in_name : option string;
  in_email : option string;
  in_role : option string;
  in_status : option string
}.

(** An integer of at most 2^53 in magnitude: a double holds it exactly,
    and [parseInt] and the numeric conversion read the same number from
    its decimal digits. *)
Definition isSafe (z : Z) : bool := (Z.abs z <=? 9007199254740992)%Z.

Record Int53 : Type := mkInt53 {
  int53 : Z;
  int53_safe : isSafe int53 = true
}.
Arguments mkInt53 : clear implicits.

(** [req.query] of [GET /api/users]; [page] and [pageSize], when given,
    are the decimal digits of an [Int53]. *)
Record ListQuery : Type := mkListQuery {
  q_page : option Int53;
  q_pageSize : option Int53;
  q_search : option string;
  q_role : option string;
  q_status : option string
}.

Inductive Body : Type :=
| UserList (data : list User) (page pageSize : Z) (total : nat)
           (totalPages : option Z)
| UserDetail (u : User)
| ErrorBody (error message : string)
| DeletedBody (u : option User)
| StatsBody (total active inactive admins plainUsers : nat)
| HealthBody (usersCount : nat).

Record Response : Type := mkResponse {
  statusCode : nat;
  body : Body
}.

(** [arr.findIndex(f)]: [None] is [-1]. *)
Fixpoint findIndex {A} (f : A -> bool) (l : list A) : option nat :=
  match l with
  | [] => None
  | x :: l' =>
      if f x then Some O
      else match findIndex f l' with
           | Some k => Some (S k)
           | None => None
           end
  end.

(** [arr[k] = x] for an index inside the array. *)
Fixpoint replaceAt {A} (k : nat) (x : A) (l : list A) : list A :=
  match l, k with
  | [], _ => []
  | _ :: t, O => x :: t
  | h :: t, S k' => h :: replaceAt k' x t
  end.

(** [arr.splice(k, 1)] *)
Fixpoint removeAt {A} (k : nat) (l : list A) : list A :=
  match l, k with
  | [], _ => []
  | _ :: t, O => t
  | h :: t, S k' => h :: removeAt k' t
  end.

(** An index of [arr.slice], relative to the end when negative and
    clamped to the array. *)
Definition clampIndex (len i : Z) : Z :=
  if i <? 0 then Z.max (len + i) 0 else Z.min i len.

(** [arr.slice(start, end)] *)
Definition slice {A} (l : list A) (start stop : Z) : list A :=
  let len := Z.of_nat (List.length l) in
  let k := clampIndex len start in
  let e := clampIndex len stop in
  firstn (Z.to_nat (e - k)) (skipn (Z.to_nat k) l).

(** [Math.ceil(total / pageSize)]: not a finite number when [pageSize]
    is 0, and written as [null] in the answer. The quotient is a double;
    for the length of an array and an [Int53] its ceiling is the ceiling
    of the exact quotient. *)
Definition totalPagesOf (total : nat) (pageSize : Z) : option Z :=
  if pageSize =? 0 then None
  else Some (- ((- Z.of_nat total) / pageSize)).

(** The callback of the search filter. *)
Definition matchesSearch {F : CaseFolding} (searchLower : string) (u : User)
  : bool :=
  includes (toLowerCase (username u)) searchLower ||
  includes (toLowerCase (name u)) searchLower ||
  includes (toLowerCase (email u)) searchLower.

(** The three filters of [GET /api/users], in the order of the code. *)
Definition filterUsers {F : CaseFolding} (q : ListQuery) (users : Users)
  : list User :=
  let filteredUsers := users in
  let filteredUsers :=
    if truthy (q_search q)
    then filter (matchesSearch (toLowerCase (toStr (q_search q)))) filteredUsers
    else filteredUsers in
  let filteredUsers :=
    if truthy (q_role q)
    then filter (fun u => String.eqb (role u) (toStr (q_role q))) filteredUsers
    else filteredUsers in
  if truthy (q_status q)
  then filter (fun u => String.eqb (status u) (toStr (q_status q))) filteredUsers
  else filteredUsers.

(** [page] and [pageSize] as numbers, with their defaults. *)
Definition pageOf (q : ListQuery) : Z :=
  match q_page q with Some p => int53 p | None => 1 end.

Definition pageSizeOf (q : ListQuery) : Z :=
  match q_pageSize q with Some s => int53 s | None => 10 end.

(** [GET /api/users]. [start] and [end] are doubles; where the exact
    product or sum is beyond 2^53 in magnitude, the double is a rounding
    of it that lies beyond the length of the array on the same side, and
    [slice] clamps the two alike, so the exact integers give the same
    page. *)
Definition getUsers {F : CaseFolding} (q : ListQuery) (users : Users) : Response :=
  let filteredUsers := filterUsers q users in
  let total := List.length filteredUsers in
  let start := (pageOf q - 1) * pageSizeOf q in
  let stop := start + pageSizeOf q in
  mkResponse 200
    (UserList (slice filteredUsers start stop) (pageOf q) (pageSizeOf q) total
       (totalPagesOf total (pageSizeOf q))).

Definition notFound (i : string) : Response :=
  mkResponse 404 (ErrorBody "Not Found" ("用户 " ++ i ++ " 不存在")%string).

(** [GET /api/users/:id] *)
Definition getUser (i : string) (users : Users) : Response :=
  match find (fun u => String.eqb (id u) i) users with
  | Some u => mkResponse 200 (UserDetail u)
  | None => notFound i
  end.

(** [POST /api/users]; [uuid] is the result of [uuidv4()] and [now] of
    [new Date().toISOString()]. *)
Definition createUser (uuid now : string) (input : UserInput) (users : Users)
  : Users * Response :=
  if negb (truthy (in_username input)) || negb (truthy (in_name input)) ||
     negb (truthy (in_email input))
  then (users, mkResponse 400
                 (ErrorBody "Bad Request" "用户名、姓名和邮箱为必填项"))
  else
    match find (fun u => String.eqb (username u) (toStr (in_username input))) users with
    | Some _ => (users, mkResponse 409 (ErrorBody "Conflict" "用户名已存在"))
    | None =>
        let newUser :=
          mkUser uuid (toStr (in_username input)) (toStr (in_name input))
            (toStr (in_email input))
            (match in_role input with Some r => r | None => "user" end)
            (match in_status input with Some s => s | None => "active" end)
            now None in
        (users ++ [newUser], mkResponse 201 (UserDetail newUser))
    end.

(** [...(v && { field: v })] over the old value of the field. *)
Definition spread (v : option string) (old : string) : string :=
  if truthy v then toStr v else old.

(** The object written by [PUT /api/users/:id] in place of [old]: the
    old fields, the given ones over them, and [updatedAt]. *)
Definition updatedFrom (now : string) (input : UserInput) (old : User) : User :=
  mkUser (id old)
    (spread (in_username input) (username old))
    (spread (in_name input) (name old))
    (spread (in_email input) (email old))
    (spread (in_role input) (role old))
    (spread (in_status input) (status old))
    (createdAt old) (Some now).

(** [PUT /api/users/:id] *)
Definition updateUser (now : string) (i : string) (input : UserInput)
    (users : Users) : Users * Response :=
  match findIndex (fun u => String.eqb (id u) i) users with
  | None => (users, notFound i)
  | Some userIndex =>
      match nth_error users userIndex with
      | None =>      (* not reached: [findIndex] answers an index of the array *)
          (users, mkResponse 500
                    (ErrorBody "Internal Server Error"
                       "TypeError: Cannot read properties of undefined"))
      | Some old =>
          if truthy (in_username input) &&
             negb (String.eqb (toStr (in_username input)) (username old)) &&
             match find (fun u => String.eqb (username u) (toStr (in_username input)) &&
                                  negb (String.eqb (id u) i)) users with
             | Some _ => true
             | None => false
             end
          then (users, mkResponse 409 (ErrorBody "Conflict" "用户名已存在"))
          else
            let updated := updatedFrom now input old in
            (replaceAt userIndex updated users, mkResponse 200 (UserDetail updated))
      end
  end.

(** [DELETE /api/users/:id] *)
Definition deleteUser (i : string) (users : Users) : Users * Response :=
  match findIndex (fun u => String.eqb (id u) i) users with
  | None => (users, notFound i)
  | Some userIndex =>
      let deletedUser := nth_error users userIndex in
      (removeAt userIndex users, mkResponse 200 (DeletedBody deletedUser))
  end.

(** [GET /api/stats] *)
Definition getStats (users : Users) : Response :=
  mkResponse 200
    (StatsBody
       (List.length users)
       (List.length (filter (fun u => String.eqb (status u) "active") users))
       (List.length (filter (fun u => String.eqb (status u) "inactive") users))
       (List.length (filter (fun u => String.eqb (role u) "admin") users))
       (List.length (filter (fun u => String.eqb (role u) "user") users))).

(** [GET /health] *)
Definition getHealth (users : Users) : Response :=
  mkResponse 200 (HealthBody (List.length users)).

(** One request that changes the store. *)
Inductive Op : Type :=
| Create (uuid now : string) (input : UserInput)
| Update (now : string) (i : string) (input : UserInput)
| Delete (i : string).

Definition applyOp (op : Op) (users : Users) : Users * Response :=
  match op with
  | Create uuid now input => createUser uuid now input users
  | Update now i input => updateUser now i input users
  | Delete i => deleteUser i users
  end.

(** The store after a sequence of requests. *)
Fixpoint run (ops : list Op) (users : Users) : Users :=
  match ops with
  | [] => users
  | op :: ops' => run ops' (fst (applyOp op users))
  end.

End UserService.

(* ================================================================== *)
(** ** User page of the user module:
       [src/modules/module-user/frontend/src/main.js] *)
(* ================================================================== *)

Module UserUI.

Import UserService.

(** The computed property [filteredUsers], over the component's
    [users], [filterRole], [filterStatus] and [searchQuery]. *)
Definition filteredUsers {F : CaseFolding} (users : list User)
    (filterRole filterStatus searchQuery : string) : list User :=
  let filtered := users in
  let filtered :=
    if negb (String.eqb filterRole "all")
    then filter (fun u => String.eqb (role u) filterRole) filtered
    else filtered in
  let filtered :=
    if negb (String.eqb filterStatus "all")
    then filter (fun u => String.eqb (status u) filterStatus) filtered
    else filtered in
  if truthy (Some searchQuery)
  then filter (matchesSearch (toLowerCase searchQuery)) filtered
  else filtered.

End UserUI.

(* ================================================================== *)
(** ** Market page of the module market: the component in
       [src/modules/module-market/frontend/webpack.config.js] *)
(* ================================================================== *)

Module MarketUI.

(** The computed property [filteredModules], over the component's
    [modules], [filterType] and [searchQuery]. *)
Definition filteredModules {F : CaseFolding} (modules : list Module)
    (filterType searchQuery : string) : result (list Module) :=
  let filtered := modules in
  let filtered :=
    if negb (String.eqb filterType "all")
    then filter (fun m => strictEqStr (type m) filterType) filtered
    else filtered in
  if truthy (Some searchQuery)
  then filterM (Market.searchCallback (toLowerCase searchQuery)) filtered
  else Ok filtered.

End MarketUI.

(* ================================================================== *)
(** ** Main application: [src/main-app/src/main.js] *)
(* ================================================================== *)

Module MainApp.

(** The [frontend] block as the main application reads it. *)
Record FrontendConfig : Type := mkFrontendConfig {
  fe_entry : option string;
  fe_container : option string;
  fe_activeRule : option string
}.

(** A module as the main application reads it: the registry record, or
    one of the hardcoded defaults, which carry [entry] and [activeRule]
    at the top as well. *)
Record ModuleConfig : Type := mkModuleConfig {
  c_name : option string;
  c_displayName : option string;
  c_entry : option string;
  c_activeRule : option string;
  c_frontend : option FrontendConfig
}.

(** A record of the registry, as it arrives in the answer of
    [GET /api/modules]. *)
Definition ofModule (m : Module) : ModuleConfig :=
  mkModuleConfig (name m) (displayName m) None None
    (match frontend m with
     | Some f => Some (mkFrontendConfig (entry f) None (activeRule f))
     | None => None
     end).

Record Props : Type := mkProps {
  apiGateway : string;
  moduleName : option string;
  p_displayName : option string
}.

(** An application as it is registered with the micro-frontend
    framework. *)
Record MicroApp : Type := mkMicroApp {
  a_name : option string;
  a_entry : option string;
  a_container : string;
  a_activeRule : option string;
  a_props : Props
}.

(** [a || b] on strings that may be undefined. *)
Definition orElse (a b : option string) : option string :=
  if truthy a then a else b.

(** [getDefaultModules()] *)
Definition getDefaultModules : list ModuleConfig :=
  [ mkModuleConfig (Some "module-market") (Some "模块市场")
      (Some "http://localhost:8081") (Some "/module-market")
      (Some (mkFrontendConfig (Some "http://localhost:8081") None
               (Some "/module-market")));
    mkModuleConfig (Some "module-user") (Some "用户管理")
      (Some "http://localhost:8082") (Some "/user")
      (Some (mkFrontendConfig (Some "http://localhost:8082") None
               (Some "/user"))) ].

(** [fetchModules()], over the outcome of
    [axios.get(MODULE_MARKET_API/modules)]. *)
Definition fetchModules (fetched : result (list ModuleConfig))
  : list ModuleConfig :=
  match fetched with
  | Ok data => data
  | Throw _ => getDefaultModules
  end.

(** The callback of [.map] in [transformModulesToApps]. *)
Definition toApp (API_GATEWAY_URL : string) (m : ModuleConfig)
    (f : FrontendConfig) : MicroApp :=
  mkMicroApp (c_name m)
    (orElse (fe_entry f) (c_entry m))
    (toStr (orElse (fe_container f) (Some "#subapp-container")))
    (orElse (fe_activeRule f) (c_activeRule m))
    (mkProps API_GATEWAY_URL (c_name m) (c_displayName m)).

(** [transformModulesToApps(modules)] *)
Fixpoint transformModulesToApps (API_GATEWAY_URL : string)
    (modules : list ModuleConfig) : list MicroApp :=
  match modules with
  | [] => []
  | m :: rest =>
      match c_frontend m with
      | Some f => toApp API_GATEWAY_URL m f :: transformModulesToApps API_GATEWAY_URL rest
      | None => transformModulesToApps API_GATEWAY_URL rest
      end
  end.

End MainApp.

(* ================================================================== *)
(** ** Notions used to state the properties of the code *)
(* ================================================================== *)

Module Props.

Import Market Gateway Spec.

(** The query parameter that stands for a selector of a page: none
    for the choice ['all']. *)
Definition selected (choice : string) : option string :=
  if String.eqb choice "all" then None else Some choice.

(** A field after an update: the value given, or the old one when none
    or an empty one is given. *)
Definition takes (given : option string) (old new : string) : Prop :=
  (truthy given = true -> Some new = given) /\
  (truthy given = false -> new = old).

(** The property a [byType] object has for a type that [n] records
    have: none when there is no such record, the number otherwise. *)
Definition counted (n : nat) : option Counter :=
  match n with
  | O => None
  | S _ => Some (Count n)
  end.

(** The sum of the numbers a [byType] object holds. *)
Fixpoint sumCounts (byType : ByType) : nat :=
  match byType with
  | [] => 0
  | (_, Count c) :: rest => c + sumCounts rest
  | (_, Text _) :: rest => sumCounts rest
  end.

(** A type key that does not name a property of [Object.prototype]. *)
Definition plainKey (t : string) : Prop := inherited t = None.

(** A record on which the search callback throws: its [name] is
    missing, or its [name] does not match and its [displayName] is
    missing. *)
Definition searchThrows {F : CaseFolding} (s : string) (m : Module) : Prop :=
  name m = None \/
  (exists n, name m = Some n /\ ~ ciSubstring s n /\ displayName m = None).

(** A route table whose longer prefixes come first. *)
Fixpoint longestFirst (table : list RouteRule) : Prop :=
  match table with
  | [] => True
  | r :: rest =>
      Forall (fun r' => String.length (r_prefix r') <= String.length (r_prefix r)) rest /\
      longestFirst rest
  end.

(** The store of the user service is consistent when its identifiers
    and its user names are pairwise distinct. *)
Definition consistent (users : UserService.Users) : Prop :=
  NoDup (map UserService.id users) /\ NoDup (map UserService.username users).

(** Every [Create] of a run is given an identifier that is not in the
    store at that moment. *)
Fixpoint freshIds (ops : list UserService.Op) (users : UserService.Users) : Prop :=
  match ops with
  | [] => True
  | op :: ops' =>
      match op with
      | UserService.Create uuid _ _ => ~ In uuid (map UserService.id users)
      | _ => True
      end /\
      freshIds ops' (fst (UserService.applyOp op users))
  end.

(** The [data] of a listing. *)
Definition dataOf (r : UserService.Response) : list UserService.User :=
  match UserService.body r with
  | UserService.UserList data _ _ _ _ => data
  | _ => []
  end.

(** The [data] of the listed pages of a listing, one after the
    other. *)
Definition dataOfPages {F : CaseFolding} (pages : list UserService.Int53)
    (pageSize : UserService.Int53) (search role status : option string)
    (users : UserService.Users) : list UserService.User :=
  flat_map
    (fun page =>
       dataOf (UserService.getUsers
                 (UserService.mkListQuery (Some page) (Some pageSize)
                    search role status) users))
    pages.

(** The page numbers [1 .. n]. *)
Definition firstPages (n : nat) : list Z := map Z.of_nat (seq 1 n).

(** [a || b] as the main application uses it: [result] is [given] when
    that is a non-empty string, and [fallback] otherwise. *)
Definition givenOr (given fallback result : option string) : Prop :=
  (truthy given = true -> result = given) /\
  (truthy given = false -> result = fallback).

(** A module that has a [frontend] block. *)
Definition withFrontend (m : MainApp.ModuleConfig) : bool :=
  match MainApp.c_frontend m with
  | Some _ => true
  | None => false
  end.

Definition registryWithFrontend (m : Module) : bool :=
  match frontend m with
  | Some _ => true
  | None => false
  end.

(** The parsed descriptor of a directory entry and the record the
    scanner makes of it. *)
Definition scannedAs (dir : string) (e : Dirent) (m : Module) : Prop :=
  exists d, moduleJson e = Parsed d /\ m = annotate (join dir (d_name e)) e d.

End Props.

(* ================================================================== *)
(** ** Concrete inputs for the user service *)
(* ================================================================== *)

Module UserFixture.

Import UserService.

Definition store : Users := initialUsers "id-1" "id-2" "id-3" "id-4".

(** A new user, without role and status. *)
Definition newInput : UserInput :=
  mkInput (Some "zhaoliu") (Some "赵六") (Some "zhaoliu@cancer.com") None None.

(** A change of user name and status only. *)
Definition renameInput : UserInput :=
  mkInput (Some "root") None None None (Some "inactive").

(** A new user with a role and a status. *)
Definition adminInput : UserInput :=
  mkInput (Some "sunqi") (Some "孙七") (Some "sunqi@cancer.com")
    (Some "admin") (Some "inactive").

Definition two : Int53 := mkInt53 2 eq_refl.
Definition three : Int53 := mkInt53 3 eq_refl.

End UserFixture.

(* ================================================================== *)
(** ** A gateway started against a market that has scanned a store *)
(* ================================================================== *)

Module FlowFixture.

(** The gateway fetches the list of a market whose cache is the scan of
    the store with module-x and a descriptor without [displayName]. *)
Definition envAfterScan : Gateway.Env :=
  Gateway.mkEnv Fixture.marketUrl (Ok (Market.init Fixture.bareStore))
    Fixture.everyBackendUp.

End FlowFixture.

(* ================================================================== *)
(** ** Facts about the string primitives *)
(* ================================================================== *)

Module JSFacts.

Lemma dropPrefix_app (p r : string) : dropPrefix p (p ++ r)%string = Some r.
Proof.
  induction p as [|c p IH]; simpl; [reflexivity|].
  rewrite Ascii.eqb_refl. exact IH.
Qed.

Lemma dropPrefix_Some (p s r : string) :
  dropPrefix p s = Some r -> s = (p ++ r)%string.
Proof.
  revert s; induction p as [|c p IH]; intros s H; simpl in *.
  - congruence.
  - destruct s as [|b s]; [discriminate|].
    destruct (Ascii.eqb c b) eqn:E; [|discriminate].
    apply Ascii.eqb_eq in E; subst b.
    f_equal. apply IH. exact H.
Qed.

Lemma startsWith_iff (s p : string) :
  startsWith s p = true <-> exists r, s = (p ++ r)%string.
Proof.
  unfold startsWith; split.
  - destruct (dropPrefix p s) as [r|] eqn:E; [|discriminate].
    intros _. exists r. apply dropPrefix_Some. exact E.
  - intros [r ->]. rewrite dropPrefix_app. reflexivity.
Qed.

(** [includes] is the substring test. *)
Lemma includes_iff (s sub : string) :
  includes s sub = true <-> exists a b, s = (a ++ sub ++ b)%string.
Proof.
  induction s as [|c s IH].
  - simpl. rewrite orb_false_r, startsWith_iff. split.
    + intros [r H]. exists EmptyString, r. exact H.
    + intros [a [b H]]. destruct a; simpl in H.
      * exists b. exact H.
      * discriminate.
  - cbn [includes]. rewrite orb_true_iff, startsWith_iff, IH. split.
    + intros [[r H] | [a [b H]]].
      * exists EmptyString, r. exact H.
      * exists (String c a), b. simpl. rewrite H. reflexivity.
    + intros [a [b H]]. destruct a as [|c' a]; simpl in H.
      * left. exists b. exact H.
      * right. injection H as _ H. exists a, b. exact H.
Qed.

(** Removing a prefix that stands at the start of the string. *)
Lemma replace_prefix (p r : string) : replace (p ++ r)%string p = r.
Proof.
  destruct p as [|c p]; destruct r as [|d r]; simpl;
    rewrite ?Ascii.eqb_refl, ?dropPrefix_app; reflexivity.
Qed.

Lemma toLowerCase_of_empty {F : CaseFolding} :
  toLowerCase EmptyString = EmptyString.
Proof. apply (toLowerCase_ascii EmptyString). reflexivity. Qed.

Lemma toLowerCase_empty {F : CaseFolding} (s : string) :
  toLowerCase s = EmptyString -> s = EmptyString.
Proof. apply toLowerCase_nonempty. Qed.

Lemma truthy_iff (v : option string) :
  truthy v = true <-> exists s, v = Some s /\ s <> EmptyString.
Proof.
  destruct v as [[|c s]|]; simpl; split; try discriminate.
  - intros [s [H Hs]]. injection H as <-. congruence.
  - intros _. exists (String c s). split; [reflexivity | discriminate].
  - reflexivity.
  - intros [s [H _]]. discriminate.
Qed.

Lemma append_assoc (a b c : string) :
  ((a ++ b) ++ c)%string = (a ++ (b ++ c))%string.
Proof. induction a as [|x a IH]; simpl; [|rewrite IH]; reflexivity. Qed.

Example asciiLowerCase_letters_only :
  asciiLowerCase "Module-X @[`{ Z" = "module-x @[`{ z".
Proof. reflexivity. Qed.

Example includes_cases :
  includes "user management" "manage" = true /\
  includes "user" "" = true /\
  includes "user" "users" = false.
Proof. repeat split; reflexivity. Qed.

Example replace_first_occurrence :
  replace "/api/x/items/api/x" "/api/x" = "/items/api/x" /\
  replace "/other/items" "/api/x" = "/other/items".
Proof. split; reflexivity. Qed.

End JSFacts.

(* ================================================================== *)
(** ** Letter case on ASCII text *)
(* ================================================================== *)

Module CaseFacts.

Import Spec JSFacts.

Lemma lowerAscii_code (c : ascii) :
  nat_of_ascii (lowerAscii c) =
  if ((65 <=? nat_of_ascii c) && (nat_of_ascii c <=? 90))%nat
  then nat_of_ascii c + 32 else nat_of_ascii c.
Proof.
  unfold lowerAscii.
  destruct ((65 <=? nat_of_ascii c) && (nat_of_ascii c <=? 90))%nat eqn:E;
    [|reflexivity].
  apply andb_true_iff in E. destruct E as [_ E]. apply Nat.leb_le in E.
  apply nat_ascii_embedding. lia.
Qed.

Lemma ascii_code_inj (c d : ascii) : nat_of_ascii c = nat_of_ascii d -> c = d.
Proof.
  intros H. rewrite <- (ascii_nat_embedding c), <- (ascii_nat_embedding d), H.
  reflexivity.
Qed.

(** Two bytes are the same letter up to case exactly when they fold to
    the same byte. *)
Lemma sameLetter_iff (c d : ascii) :
  sameLetter c d = true <-> lowerAscii c = lowerAscii d.
Proof.
  split.
  - intros H. apply ascii_code_inj. rewrite !lowerAscii_code.
    unfold sameLetter in H.
    destruct (65 <=? nat_of_ascii c)%nat eqn:Lc;
      destruct (nat_of_ascii c <=? 90)%nat eqn:Uc;
      destruct (65 <=? nat_of_ascii d)%nat eqn:Ld;
      destruct (nat_of_ascii d <=? 90)%nat eqn:Ud;
      cbn [andb orb] in *;
      rewrite ?orb_false_r, ?orb_true_iff, ?Nat.eqb_eq in H;
      rewrite ?Nat.leb_le, ?Nat.leb_gt in *; lia.
  - intros H. apply (f_equal nat_of_ascii) in H. rewrite !lowerAscii_code in H.
    unfold sameLetter.
    destruct (65 <=? nat_of_ascii c)%nat eqn:Lc;
      destruct (nat_of_ascii c <=? 90)%nat eqn:Uc;
      destruct (65 <=? nat_of_ascii d)%nat eqn:Ld;
      destruct (nat_of_ascii d <=? 90)%nat eqn:Ud;
      cbn [andb orb] in *;
      rewrite ?orb_false_r, ?orb_true_iff, ?Nat.eqb_eq;
      rewrite ?Nat.leb_le, ?Nat.leb_gt in *; lia.
Qed.

Lemma sameUpToCase_iff (s t : string) :
  sameUpToCase s t = true <-> asciiLowerCase s = asciiLowerCase t.
Proof.
  revert t; induction s as [|c s IH]; intros [|d t]; cbn;
    try (split; [reflexivity | reflexivity]);
    try (split; discriminate).
  rewrite andb_true_iff, sameLetter_iff, IH. split.
  - intros [-> ->]. reflexivity.
  - intros H. injection H as H1 H2. auto.
Qed.

Lemma asciiLowerCase_app (a b : string) :
  asciiLowerCase (a ++ b) = (asciiLowerCase a ++ asciiLowerCase b)%string.
Proof. induction a as [|c a IH]; cbn; [|rewrite IH]; reflexivity. Qed.

Lemma asciiLowerCase_split (f x y : string) :
  asciiLowerCase f = (x ++ y)%string ->
  exists f1 f2,
    f = (f1 ++ f2)%string /\ asciiLowerCase f1 = x /\ asciiLowerCase f2 = y.
Proof.
  revert f; induction x as [|c x IH]; intros f H; cbn in H.
  - exists EmptyString, f. auto.
  - destruct f as [|d f]; [discriminate|]. cbn in H. injection H as Hc H.
    destruct (IH f H) as [f1 [f2 [-> [H1 H2]]]].
    exists (String d f1), f2. cbn. rewrite Hc, H1. auto.
Qed.

Lemma isAscii_app (a b : string) :
  isAscii (a ++ b) = isAscii a && isAscii b.
Proof.
  induction a as [|c a IH]; cbn; [reflexivity|].
  rewrite IH, andb_assoc. reflexivity.
Qed.

(** On ASCII text the case-insensitive match is the match of a
    substring that differs from the needle at most in the case of its
    letters. *)
Lemma ciSubstring_ascii {F : CaseFolding} (needle field : string) :
  isAscii needle = true -> isAscii field = true ->
  (ciSubstring needle field <->
   exists a mid b,
     field = (a ++ mid ++ b)%string /\ sameUpToCase mid needle = true).
Proof.
  intros Hn Hf. unfold ciSubstring.
  rewrite (toLowerCase_ascii _ Hn), (toLowerCase_ascii _ Hf). split.
  - intros [x [y H]].
    apply asciiLowerCase_split in H. destruct H as [a [rest [-> [_ H]]]].
    apply asciiLowerCase_split in H. destruct H as [mid [b [-> [H _]]]].
    exists a, mid, b. split; [reflexivity|]. apply sameUpToCase_iff. exact H.
  - intros [a [mid [b [-> H]]]]. apply sameUpToCase_iff in H.
    exists (asciiLowerCase a), (asciiLowerCase b).
    rewrite !asciiLowerCase_app, H. reflexivity.
Qed.

Example sameUpToCase_cases :
  sameUpToCase "REPORT" "report" = true /\
  sameUpToCase "Report" "rePORT" = true /\
  sameUpToCase "[A]" "{a}" = false /\
  sameUpToCase "report" "reports" = false.
Proof. repeat split; reflexivity. Qed.

End CaseFacts.

(* ================================================================== *)
(** ** The module market: scanner, cache and query service *)
(* ================================================================== *)

Module MarketProofs.

Import Market Spec Fixture JSFacts.

(** *** The scanner *)

Section Scanner.

Variable dir : string.

Lemma scanEntries_cons (e : Dirent) (es : list Dirent) :
  scanEntries dir (e :: es) =
  (fst (scanEntry dir e) ++ fst (scanEntries dir es),
   snd (scanEntry dir e) ++ snd (scanEntries dir es)).
Proof.
  simpl. destruct (scanEntry dir e), (scanEntries dir es). reflexivity.
Qed.

Lemma scanEntry_records (e : Dirent) :
  List.length (fst (scanEntry dir e)) = if parsedDescriptor e then 1 else 0.
Proof.
  unfold scanEntry, parsedDescriptor, scanned.
  destruct (isDirectory e && startsWith (d_name e) "module-");
    [destruct (moduleJson e)|]; reflexivity.
Qed.

Lemma scanEntry_diagnostics (e : Dirent) :
  List.length (diagnostics (snd (scanEntry dir e))) =
  if unparsableDescriptor e then 1 else 0.
Proof.
  unfold scanEntry, unparsableDescriptor, scanned.
  destruct (isDirectory e && startsWith (d_name e) "module-");
    [destruct (moduleJson e)|]; reflexivity.
Qed.

Lemma diagnostics_app (l1 l2 : list LogEvent) :
  diagnostics (l1 ++ l2) = diagnostics l1 ++ diagnostics l2.
Proof. unfold diagnostics. apply filter_app. Qed.

Lemma scanEntries_records (es : list Dirent) :
  List.length (fst (scanEntries dir es)) =
  List.length (filter parsedDescriptor es).
Proof.
  induction es as [|e es IH]; [reflexivity|].
  rewrite scanEntries_cons. cbn [fst filter].
  rewrite length_app, scanEntry_records, IH.
  destruct (parsedDescriptor e); reflexivity.
Qed.

Lemma scanEntries_diagnostics (es : list Dirent) :
  List.length (diagnostics (snd (scanEntries dir es))) =
  List.length (filter unparsableDescriptor es).
Proof.
  induction es as [|e es IH]; [reflexivity|].
  rewrite scanEntries_cons. cbn [snd filter].
  rewrite diagnostics_app, length_app, scanEntry_diagnostics, IH.
  destruct (unparsableDescriptor e); reflexivity.
Qed.

Lemma scanEntries_keeps (es : list Dirent) (e : Dirent) (m : Module) :
  In e es -> scanned e = true -> moduleJson e = Parsed m ->
  In (annotate (join dir (d_name e)) e m) (fst (scanEntries dir es)).
Proof.
  intros Hin Hs Hm. induction es as [|e' es IH]; [contradiction|].
  rewrite scanEntries_cons. cbn [fst]. apply in_or_app.
  destruct Hin as [-> | Hin].
  - left. unfold scanEntry. unfold scanned in Hs. rewrite Hs, Hm.
    left. reflexivity.
  - right. apply IH. exact Hin.
Qed.

Lemma scanModules_readable (es : list Dirent) :
  scanModules (mkFS dir (Ok es)) =
  (fst (scanEntries dir es),
   LogScanStart dir ::
     snd (scanEntries dir es) ++ [LogTotal (List.length (fst (scanEntries dir es)))]).
Proof.
  unfold scanModules. cbn [readdir MODULES_DIR].
  destruct (scanEntries dir es). reflexivity.
Qed.

Lemma scanModules_unreadable (msg : string) :
  scanModules (mkFS dir (Throw msg)) = ([], [LogScanStart dir; LogScanFailed msg]).
Proof. reflexivity. Qed.

End Scanner.

Example scan_mixedStore :
  fst (scanModules mixedStore) =
    [ annotate (join root "module-x") (dirent "module-x" (Parsed moduleX)) moduleX;
      annotate (join root "module-bare")
        (dirent "module-bare" (Parsed moduleNoDisplayName)) moduleNoDisplayName ] /\
  diagnostics (snd (scanModules mixedStore)) =
    [ LogParseError "module-broken" "Unexpected token } in JSON" ].
Proof. split; reflexivity. Qed.

(** C3, as stated, fails: a store with one valid
    descriptor and one that lacks [displayName] (N = 1, M = 1) is
    scanned into two records and no diagnostic. *)
Lemma C3_counterexample :
  List.length (filter validDescriptor bareEntries) = 1 /\
  List.length (filter invalidDescriptor bareEntries) = 1 /\
  List.length (fst (scanModules bareStore)) = 2 /\
  List.length (diagnostics (snd (scanModules bareStore))) = 0.
Proof. repeat split; reflexivity. Qed.

(** C3, amended: the scan of a readable store returns one record for
    every descriptor that parses, whether or not it has the required
    fields, and logs one diagnostic for every descriptor that does not
    parse; a descriptor that parses is in the result whatever the other
    entries are, and the scan itself always returns. *)
Theorem C3_scan_isolates_unparsable_descriptors
    (dir : string) (entries : list Dirent) :
  List.length (fst (scanModules (mkFS dir (Ok entries)))) =
    List.length (filter parsedDescriptor entries) /\
  List.length (diagnostics (snd (scanModules (mkFS dir (Ok entries))))) =
    List.length (filter unparsableDescriptor entries) /\
  (forall e m,
     In e entries -> scanned e = true -> moduleJson e = Parsed m ->
     In (annotate (join dir (d_name e)) e m)
        (fst (scanModules (mkFS dir (Ok entries))))).
Proof.
  rewrite scanModules_readable. cbn [fst snd]. repeat split.
  - apply scanEntries_records.
  - cbn [diagnostics filter isDiagnostic].
    fold (diagnostics (snd (scanEntries dir entries) ++
                       [LogTotal (List.length (fst (scanEntries dir entries)))])).
    rewrite diagnostics_app. cbn. rewrite length_app, Nat.add_0_r.
    apply scanEntries_diagnostics.
  - intros e m. apply scanEntries_keeps.
Qed.

(** *** The registry cache *)

(** C2, as stated, fails: when the store cannot be read
    the refresh is a failed discovery, yet the code publishes the empty
    snapshot and answers success with count 0, where the refresh of the
    specification keeps the snapshot and returns the error. *)
Lemma C2_counterexample :
  readdir brokenStore = Throw "ENOENT: no such file or directory, scandir" /\
  current sampleCache = [moduleX; moduleY; moduleNoEnabled] /\
  current (cacheAfterRefresh brokenStore sampleCache) = [] /\
  refreshResponse brokenStore sampleCache = mkResponse 200 (RefreshBody true 0) /\
  refreshWithRollback brokenStore sampleCache =
    (sampleCache, Throw "ENOENT: no such file or directory, scandir").
Proof. repeat split; reflexivity. Qed.

(** C2, amended: a refresh has no failure path. It replaces the active
    snapshot with the result of the scan, whatever the snapshot was, and
    answers success with the new count; when the store cannot be read
    the new snapshot is empty and the answer is success with count 0. *)
Theorem C2_refresh_always_replaces (fs : FileSystem) (cache : Cache) :
  current (cacheAfterRefresh fs cache) = fst (scanModules fs) /\
  refreshResponse fs cache =
    mkResponse 200 (RefreshBody true (List.length (cacheAfterRefresh fs cache))) /\
  (forall dir msg,
     current (cacheAfterRefresh (mkFS dir (Throw msg)) cache) = [] /\
     refreshResponse (mkFS dir (Throw msg)) cache =
       mkResponse 200 (RefreshBody true 0)).
Proof.
  unfold cacheAfterRefresh, refreshResponse, postRefresh, current.
  repeat split; destruct (scanModules fs); reflexivity.
Qed.

(** *** The query service *)

Lemma filter_filter_andb {A} (f g : A -> bool) (l : list A) :
  filter g (filter f l) = filter (fun x => f x && g x) l.
Proof.
  induction l as [|x l IH]; [reflexivity|].
  simpl. destruct (f x); simpl; [destruct (g x)|]; rewrite IH; reflexivity.
Qed.

Lemma filter_all {A} (l : list A) : filter (fun _ => true) l = l.
Proof. induction l as [|x l IH]; simpl; [|rewrite IH]; reflexivity. Qed.

(** A callback that never throws on the list filters like [filter]. *)
Lemma filterM_total {A} (f : A -> result bool) (g : A -> bool) (l : list A) :
  Forall (fun x => f x = Ok (g x)) l -> filterM f l = Ok (filter g l).
Proof.
  induction 1 as [|x l Hx _ IH]; [reflexivity|].
  simpl. rewrite Hx, IH. simpl. destruct (g x); reflexivity.
Qed.

(** Whatever [filterM] returns is taken from its input. *)
Lemma filterM_In {A} (f : A -> result bool) (l r : list A) :
  filterM f l = Ok r -> forall x, In x r -> In x l.
Proof.
  revert r; induction l as [|y l IH]; intros r H x Hx; simpl in H.
  - injection H as <-. exact Hx.
  - destruct (f y) as [b|]; [|discriminate]. simpl in H.
    destruct (filterM f l) as [r'|]; [|discriminate]. simpl in H.
    injection H as <-. destruct b.
    + destruct Hx as [-> | Hx]; [left; reflexivity | right; eauto].
    + right; eauto.
Qed.

(** When [filterM] returns, its callback returned on every element, and
    the result is the list filtered by what the callback returned. *)
Lemma filterM_Ok_agree {A} (f : A -> result bool) (g : A -> bool) (l r : list A) :
  filterM f l = Ok r ->
  (forall x b, In x l -> f x = Ok b -> b = g x) ->
  r = filter g l.
Proof.
  revert r; induction l as [|x l IH]; intros r H Hg; simpl in *.
  - congruence.
  - destruct (f x) as [b|] eqn:E; [|discriminate]. simpl in H.
    destruct (filterM f l) as [r'|]; [|discriminate]. simpl in H.
    injection H as <-.
    rewrite <- (Hg x b (or_introl eq_refl) E).
    rewrite (IH r' eq_refl); [reflexivity|].
    intros y c Hy. apply Hg. right. exact Hy.
Qed.

(** When [filterM] throws, it is the callback that threw, on an element
    of the list. *)
Lemma filterM_Throw_In {A} (f : A -> result bool) (l : list A) (e : string) :
  filterM f l = Throw e -> exists x, In x l /\ f x = Throw e.
Proof.
  induction l as [|x l IH]; simpl; [discriminate|].
  destruct (f x) as [b|e0] eqn:E; simpl.
  - destruct (filterM f l) as [r|e1]; simpl; [discriminate|].
    intros H. injection H as <-. destruct (IH eq_refl) as [y [Hy Hf]].
    exists y. auto.
  - intros H. injection H as <-. exists x. auto.
Qed.

(** The search callback on a record: the disjunction of the three field
    tests when it returns; when it throws, the record lacks [name] or
    [displayName] and the message is that of the [TypeError]. *)
Lemma searchCallback_cases {F : CaseFolding} (needle : string) (m : Module) :
  needle <> EmptyString ->
  match searchCallback needle m with
  | Ok b =>
      b = fieldTest needle (name m) || fieldTest needle (displayName m) ||
          fieldTest needle (description m)
  | Throw e =>
      e = "Cannot read properties of undefined (reading 'toLowerCase')" /\
      hasRequiredFields m = false
  end.
Proof.
  intros Hne. unfold hasRequiredFields, searchCallback.
  destruct (name m) as [n|]; cbn [toLowerCaseOf bind fieldTest];
    [|split; reflexivity].
  destruct (includes (toLowerCase n) needle); [reflexivity|].
  destruct (displayName m) as [d|]; cbn [toLowerCaseOf bind fieldTest orb];
    [|split; reflexivity].
  destruct (includes (toLowerCase d) needle); [reflexivity|].
  destruct (description m) as [[|c s]|]; cbn; try reflexivity.
  rewrite toLowerCase_of_empty. destruct needle; [congruence | reflexivity].
Qed.

(** The first two filters of the handler, as one. *)
Lemma filterModules_steps {F : CaseFolding} (q : Query) (cache : Cache) :
  filterModules q cache =
  if truthy (q_search q)
  then filterM (searchCallback (toLowerCase (toStr (q_search q))))
         (filter (fun m => typeTest q m && enabledTest q m) cache)
  else Ok (filter (fun m => typeTest q m && enabledTest q m) cache).
Proof.
  unfold filterModules.
  set (l1 := if truthy (q_type q) then _ else _).
  assert (E1 : l1 = filter (typeTest q) cache).
  { subst l1. unfold typeTest. destruct (truthy (q_type q));
      [reflexivity | symmetry; apply filter_all]. }
  set (l2 := match q_enabled q with Some _ => _ | None => _ end).
  assert (E2 : l2 = filter (enabledTest q) l1).
  { subst l2. unfold enabledTest. destruct (q_enabled q);
      [reflexivity | symmetry; apply filter_all]. }
  rewrite E2, E1, filter_filter_andb. reflexivity.
Qed.

Lemma search_needle_nonempty {F : CaseFolding} (q : Query) :
  truthy (q_search q) = true ->
  toLowerCase (toStr (q_search q)) <> EmptyString.
Proof.
  intros Hs. apply truthy_iff in Hs. destruct Hs as [s [-> Hs]]. cbn.
  intros H. apply toLowerCase_empty in H. contradiction.
Qed.

(** The answer of the handler: the snapshot filtered by the three tests,
    or the exception of the search callback on a record that lacks a
    required field. *)
Lemma filterModules_cases {F : CaseFolding} (q : Query) (cache : Cache) :
  filterModules q cache =
    Ok (filter (fun m => typeTest q m && (enabledTest q m && searchTest q m)) cache) \/
  (filterModules q cache =
     Throw "Cannot read properties of undefined (reading 'toLowerCase')" /\
   truthy (q_search q) = true /\
   exists m, In m cache /\ hasRequiredFields m = false).
Proof.
  rewrite filterModules_steps. unfold searchTest.
  destruct (truthy (q_search q)) eqn:Hs.
  - pose proof (search_needle_nonempty q Hs) as Hne.
    set (needle := toLowerCase (toStr (q_search q))) in *.
    destruct (filterM (searchCallback needle) _) as [r|e] eqn:E.
    + left. f_equal.
      rewrite (filterM_Ok_agree _
                 (fun m => fieldTest needle (name m) ||
                           fieldTest needle (displayName m) ||
                           fieldTest needle (description m)) _ E).
      * rewrite filter_filter_andb. apply filter_ext. intros m.
        rewrite andb_assoc. reflexivity.
      * intros m b _ Hb. pose proof (searchCallback_cases m Hne) as H.
        rewrite Hb in H. exact H.
    + right. apply filterM_Throw_In in E. destruct E as [m [Hin Hm]].
      pose proof (searchCallback_cases m Hne) as H. rewrite Hm in H.
      destruct H as [-> Hwf]. split; [reflexivity|]. split; [reflexivity|].
      exists m. split; [|exact Hwf]. apply filter_In in Hin. tauto.
  - left. f_equal. apply filter_ext. intros m.
    rewrite andb_true_r. reflexivity.
Qed.

Lemma filterModules_wellformed {F : CaseFolding} (q : Query) (cache : Cache) :
  Forall (fun m => hasRequiredFields m = true) cache ->
  filterModules q cache =
  Ok (filter (fun m => typeTest q m && (enabledTest q m && searchTest q m)) cache).
Proof.
  intros Hwf. destruct (filterModules_cases q cache) as [H | [_ [_ [m [Hin Hm]]]]];
    [exact H|].
  rewrite Forall_forall in Hwf. rewrite (Hwf m Hin) in Hm. discriminate.
Qed.

(** A filter that applies only when its parameter is given. *)
Lemma when_given (v : option string) (test : string -> bool) (P : string -> Prop) :
  (forall s, test s = true <-> P s) ->
  (if truthy v then test (toStr v) else true) = true <->
  (forall s, v = Some s -> s <> EmptyString -> P s).
Proof.
  intros Htest. destruct (truthy v) eqn:Hv.
  - apply truthy_iff in Hv. destruct Hv as [s [-> Hne]]. cbn [toStr].
    rewrite Htest. split.
    + intros H s' E _. injection E as <-. exact H.
    + intros H. apply (H s eq_refl Hne).
  - split; [|reflexivity]. intros _ s E Hne.
    assert (truthy v = true) by (apply truthy_iff; eauto). congruence.
Qed.

Lemma typeTest_iff (q : Query) (m : Module) :
  typeTest q m = true <-> typeFilter q m.
Proof.
  unfold typeTest, typeFilter.
  apply (when_given (q_type q) (fun t => strictEqStr (type m) t)).
  intros t. unfold strictEqStr. destruct (type m) as [x|].
  - rewrite String.eqb_eq. split; congruence.
  - split; discriminate.
Qed.

Lemma enabledTest_iff (q : Query) (m : Module) :
  enabledTest q m = true <-> enabledFilter q m.
Proof.
  unfold enabledTest, enabledFilter, strictEqBool.
  destruct (q_enabled q) as [e|].
  - split.
    + intros H e' He. injection He as <-.
      destruct (enabled m) as [x|]; [|discriminate].
      apply Bool.eqb_prop in H. congruence.
    + intros H. rewrite (H e eq_refl). apply Bool.eqb_reflx.
  - split; [discriminate | reflexivity].
Qed.

Lemma fieldTest_iff {F : CaseFolding} (s : string) (field : option string) :
  fieldTest (toLowerCase s) field = true <->
  exists x, field = Some x /\ ciSubstring s x.
Proof.
  unfold fieldTest, ciSubstring. destruct field as [x|].
  - rewrite includes_iff. split.
    + intros H. exists x. auto.
    + intros [y [E H]]. injection E as <-. exact H.
  - split; [discriminate | intros [x [E _]]; discriminate].
Qed.

Lemma searchTest_iff {F : CaseFolding} (q : Query) (m : Module) :
  searchTest q m = true <-> searchFilter q m.
Proof.
  unfold searchTest, searchFilter.
  apply (when_given (q_search q)
           (fun s => fieldTest (toLowerCase s) (name m) ||
                     fieldTest (toLowerCase s) (displayName m) ||
                     fieldTest (toLowerCase s) (description m))).
  intros s. rewrite !orb_true_iff, !fieldTest_iff. tauto.
Qed.

Section QueryExamples.

#[local] Existing Instance asciiFolding.

(** [?type=tool&enabled=false&search=REPORT] over a snapshot of three
    records selects the one tool that is disabled and whose description
    holds the word, in another letter case. *)
Example search_ignores_letter_case :
  getModules (mkQuery (Some "tool") (Some "false") (Some "REPORT"))
    (current sampleCache) =
  mkResponse 200 (ModuleList [moduleY]).
Proof. reflexivity. Qed.

(** Where a record lacks a required field, a search that reaches the
    field throws and the request is answered 500. *)
Example search_reaches_missing_field :
  getModules (mkQuery None None (Some "zzz")) [moduleNoDisplayName] =
  mkResponse 500
    (ServerErrorBody
       "Cannot read properties of undefined (reading 'toLowerCase')").
Proof. reflexivity. Qed.


End QueryExamples.


Section FilteringExamples.

#[local] Existing Instance asciiFolding.


End FilteringExamples.

(** *** The [enabled] field *)

Lemma disabled_count (cache : Cache) :
  List.length (filter (fun m => negb (truthyBool (enabled m))) cache) =
  List.length (filter enabledFalse cache) + List.length (filter enabledOmitted cache).
Proof.
  induction cache as [|m cache IH]; [reflexivity|].
  unfold enabledFalse, enabledOmitted in *. simpl.
  destruct (enabled m) as [[|]|]; simpl; lia.
Qed.

Lemma enabled_filter_only {F : CaseFolding} (e : string) (cache : Cache) :
  filterModules (mkQuery None (Some e) None) cache =
  Ok (filter (fun m => strictEqBool (enabled m) (String.eqb e "true")) cache).
Proof. reflexivity. Qed.

Lemma filterModules_enabled {F : CaseFolding}
    (q : Query) (e : string) (cache ms : list Module) :
  q_enabled q = Some e ->
  filterModules q cache = Ok ms ->
  forall m, In m ms -> enabled m = Some (String.eqb e "true").
Proof.
  unfold filterModules. intros He H m Hm. rewrite He in H.
  set (l1 := if truthy (q_type q) then _ else _) in H.
  assert (Hin : In m (filter (fun m => strictEqBool (enabled m) (String.eqb e "true")) l1)).
  { destruct (truthy (q_search q)).
    - eapply filterM_In; eauto.
    - injection H as <-. exact Hm. }
  apply filter_In in Hin. destruct Hin as [_ Hb].
  unfold strictEqBool in Hb. destruct (enabled m) as [x|]; [|discriminate].
  apply Bool.eqb_prop in Hb. congruence.
Qed.

Section EnabledExamples.

#[local] Existing Instance asciiFolding.

(** C9, as stated, fails: a record that leaves [enabled]
    out is counted as disabled by [GET /api/stats] (enabled 0,
    disabled 1) and is not in the answer to
    [GET /api/modules?enabled=true]. *)
Lemma C9_counterexample :
  enabled moduleNoEnabled = None /\
  getStats [moduleNoEnabled] =
    mkResponse 200 (StatsBody 1 0 1 0 0 [("tool", Count 1)]) /\
  getModules (mkQuery None (Some "true") None) [moduleNoEnabled] =
    mkResponse 200 (ModuleList []).
Proof. repeat split; reflexivity. Qed.

End EnabledExamples.

(** C9, amended: the code gives [enabled] no default. [GET /api/stats]
    counts as enabled the records whose [enabled] is [true] and as
    disabled all the others, those that leave the field out included;
    a query with an [enabled] parameter returns only records whose
    [enabled] is the boolean asked for, so a record without the field
    is in neither [?enabled=true] nor [?enabled=false]. *)
Theorem C9_enabled_has_no_default {F : CaseFolding} (cache : Cache) :
  (exists withBackend withFrontend byType,
     getStats cache =
     mkResponse 200
       (StatsBody (List.length cache)
          (List.length (filter enabledTrue cache))
          (List.length (filter enabledFalse cache) +
           List.length (filter enabledOmitted cache))
          withBackend withFrontend byType)) /\
  (forall e,
     getModules (mkQuery None (Some e) None) cache =
     mkResponse 200
       (ModuleList (filter (fun m => strictEqBool (enabled m) (String.eqb e "true")) cache))) /\
  (forall q e ms,
     q_enabled q = Some e ->
     getModules q cache = mkResponse 200 (ModuleList ms) ->
     forall m, In m ms -> enabledOmitted m = false).
Proof.
  split; [|split].
  - unfold getStats. rewrite disabled_count. eauto.
  - reflexivity.
  - intros q e ms He H m Hm. unfold getModules in H.
    destruct (filterModules q cache) as [ms'|] eqn:E; [|discriminate].
    injection H as <-.
    unfold enabledOmitted.
    rewrite (@filterModules_enabled F q e cache ms' He E m Hm).
    reflexivity.
Qed.

(** *** Records that share a name *)

Lemma find_first (n : string) (before after : list Module) (m : Module) :
  name m = Some n ->
  (forall x, In x before -> name x <> Some n) ->
  find (fun x => strictEqStr (name x) n) (before ++ m :: after) = Some m.
Proof.
  intros Hm Hb. induction before as [|x before IH]; simpl.
  - unfold strictEqStr. rewrite Hm, String.eqb_refl. reflexivity.
  - assert (Hx : strictEqStr (name x) n = false).
    { unfold strictEqStr. destruct (name x) as [y|] eqn:E; [|reflexivity].
      apply String.eqb_neq. intros ->. apply (Hb x); [left; reflexivity | exact E]. }
    rewrite Hx. apply IH. intros y Hy. apply Hb. right. exact Hy.
Qed.

(** C10: among records of one name, [GET /api/modules/:name] answers
    with the first of the snapshot; [GET /api/modules] without
    parameters answers with the whole snapshot, duplicates included;
    and the cache holds the result of the scan as it is, one record for
    every descriptor that parses, whatever the names are. *)
Theorem C10_duplicate_names {F : CaseFolding} (cache : Cache) :
  (forall n before m after,
     cache = before ++ m :: after ->
     name m = Some n ->
     (forall x, In x before -> name x <> Some n) ->
     getModule n (current cache) = mkResponse 200 (ModuleDetail m)) /\
  getModules (mkQuery None None None) (current cache) =
    mkResponse 200 (ModuleList cache) /\
  (forall fs,
     init fs = fst (scanModules fs) /\
     cacheAfterRefresh fs cache = fst (scanModules fs)) /\
  (forall dir entries,
     List.length (init (mkFS dir (Ok entries))) =
     List.length (filter parsedDescriptor entries)).
Proof.
  split; [|split; [|split; [split|]]].
  - intros n before m after -> Hm Hb. unfold getModule, current.
    rewrite (@find_first n before after m Hm Hb). reflexivity.
  - reflexivity.
  - reflexivity.
  - unfold cacheAfterRefresh, postRefresh. destruct (scanModules fs); reflexivity.
  - intros dir entries. unfold init. rewrite scanModules_readable.
    apply scanEntries_records.
Qed.

Section DuplicateExamples.

#[local] Existing Instance asciiFolding.

(** C10 on a store in which two directories describe [module-dup]: the
    snapshot holds both records and the lookup answers with the first. *)
Lemma C10_duplicate_names_witness :
  List.length (init dupStore) = 2 /\
  getModule "module-dup" (current (init dupStore)) =
    mkResponse 200
      (ModuleDetail (annotate (join root "module-dup-1")
                       (dirent "module-dup-1" (Parsed dupFirst)) dupFirst)).
Proof.
  split.
  - apply (proj2 (proj2 (proj2 (C10_duplicate_names (init dupStore)))) root dupEntries).
  - apply (proj1 (C10_duplicate_names (init dupStore)) "module-dup" []
             (annotate (join root "module-dup-1")
                (dirent "module-dup-1" (Parsed dupFirst)) dupFirst)
             [annotate (join root "module-dup-2")
                (dirent "module-dup-2" (Parsed dupSecond)) dupSecond]).
    + reflexivity.
    + reflexivity.
    + intros x [].
Defined.

End DuplicateExamples.

End MarketProofs.

(* ================================================================== *)
(** ** The gateway: route table, forwarder and timer *)
(* ================================================================== *)

Module GatewayProofs.

Import Gateway Spec Fixture JSFacts.

(** *** What [setupDynamicRoutes] adds to the application *)

Lemma registerModule_ruleOf (stack : list Layer) (m : Module) :
  registerModule stack m = stack ++ map proxyLayer (ruleOf m).
Proof.
  unfold registerModule, ruleOf.
  destruct (backend m) as [b|]; [|symmetry; apply app_nil_r].
  destruct (url b) as [[|c u]|]; cbn; try (symmetry; apply app_nil_r).
  destruct (prefix b) as [[|d p]|]; reflexivity.
Qed.

Lemma registerModules_build (ms : list Module) (stack : list Layer) :
  fold_left registerModule ms stack = stack ++ map proxyLayer (build ms).
Proof.
  revert stack; induction ms as [|m ms IH]; intros stack; simpl.
  - symmetry; apply app_nil_r.
  - rewrite IH, registerModule_ruleOf, <- app_assoc, map_app. reflexivity.
Qed.

Lemma routeTable_app (s1 s2 : list Layer) :
  routeTable (s1 ++ s2) = routeTable s1 ++ routeTable s2.
Proof. unfold routeTable. apply flat_map_app. Qed.

Lemma routeTable_proxyLayers (table : list RouteRule) :
  routeTable (map proxyLayer table) = table.
Proof.
  induction table as [|[p t n] table IH]; [reflexivity|].
  simpl. f_equal. exact IH.
Qed.

Lemma startGateway_app (env : Env) :
  app (startGateway env) =
  baseApp ++ map proxyLayer (build (fetchModulesFromMarket env)).
Proof. apply registerModules_build. Qed.

Lemma startGateway_routeTable (env : Env) :
  routeTable (app (startGateway env)) = build (fetchModulesFromMarket env).
Proof.
  rewrite startGateway_app, routeTable_app, routeTable_proxyLayers.
  reflexivity.
Qed.

Lemma ruleOf_length (m : Module) :
  List.length (ruleOf m) = if hasBackendUrl m then 1 else 0.
Proof.
  unfold ruleOf, hasBackendUrl.
  destruct (backend m) as [b|]; [|reflexivity].
  destruct (url b) as [[|c u]|]; reflexivity.
Qed.

Lemma build_length (snapshot : list Module) :
  List.length (build snapshot) = List.length (filter hasBackendUrl snapshot).
Proof.
  induction snapshot as [|m ms IH]; [reflexivity|].
  unfold build in *. simpl. rewrite length_app, ruleOf_length, IH.
  destruct (hasBackendUrl m); reflexivity.
Qed.

(** The rule of one descriptor, read off its [backend] block. *)
Lemma ruleOf_In (m : Module) (r : RouteRule) :
  In r (ruleOf m) <->
  exists b u,
    backend m = Some b /\ url b = Some u /\ u <> EmptyString /\
    targetBaseUrl r = u /\ moduleName r = name m /\
    ((present (prefix b) /\ prefix b = Some (r_prefix r)) \/
     (~ present (prefix b) /\ r_prefix r = ("/api/" ++ toStr (name m))%string)).
Proof.
  unfold ruleOf, present. split.
  - destruct (backend m) as [b|]; [|contradiction].
    destruct (url b) as [u|] eqn:Eu; [|contradiction].
    destruct (String.eqb u "") eqn:E; [contradiction|].
    apply String.eqb_neq in E.
    intros [<- | []]. exists b, u. cbn. repeat split; auto.
    destruct (prefix b) as [p|].
    + destruct (String.eqb p "") eqn:Ep.
      * apply String.eqb_eq in Ep. subst p. right. split; [|reflexivity].
        intros [s [H Hs]]. injection H as <-. congruence.
      * apply String.eqb_neq in Ep. left. split; [eauto | reflexivity].
    + right. split; [|reflexivity]. intros [s [H _]]. discriminate.
  - intros [b [u [Hb [Hu [Hne [Ht [Hn Hp]]]]]]]. rewrite Hb, Hu.
    apply String.eqb_neq in Hne. rewrite Hne. left.
    destruct r as [rp rt rn]. cbn in *. subst rt rn. f_equal.
    destruct Hp as [[[s [Hs Hsne]] Hp] | [Hnp ->]].
    + rewrite Hp. rewrite Hp in Hs. injection Hs as <-.
      apply String.eqb_neq in Hsne. rewrite Hsne. reflexivity.
    + destruct (prefix b) as [p|]; [|reflexivity].
      destruct (String.eqb p "") eqn:Ep; [reflexivity|].
      apply String.eqb_neq in Ep. exfalso. apply Hnp. eauto.
Qed.

(** C8: the routes that [setupDynamicRoutes] adds are those of
    [build]: one for every descriptor whose [backend.url] is present,
    in the order of the snapshot, with the prefix [backend.prefix] when
    it is given and ['/api/'] followed by the module name otherwise,
    mapped to the backend URL; and the table depends on the snapshot
    alone, not on the rest of the environment. *)
Theorem C8_route_table_building (env : Env) (stack : list Layer) :
  setupDynamicRoutes env stack =
    stack ++ map proxyLayer (build (fetchModulesFromMarket env)) /\
  routeTable (setupDynamicRoutes env stack) =
    routeTable stack ++ build (fetchModulesFromMarket env) /\
  (forall snapshot,
     List.length (build snapshot) = List.length (filter hasBackendUrl snapshot)) /\
  (forall snapshot r,
     In r (build snapshot) <->
     exists m b u,
       In m snapshot /\ backend m = Some b /\ url b = Some u /\ u <> EmptyString /\
       targetBaseUrl r = u /\ moduleName r = name m /\
       ((present (prefix b) /\ prefix b = Some (r_prefix r)) \/
        (~ present (prefix b) /\ r_prefix r = ("/api/" ++ toStr (name m))%string))) /\
  (forall marketUrl' upstream',
     setupDynamicRoutes (mkEnv marketUrl' (fetch env) upstream') stack =
     setupDynamicRoutes env stack).
Proof.
  split; [|split; [|split; [|split]]].
  - apply registerModules_build.
  - unfold setupDynamicRoutes.
    rewrite registerModules_build, routeTable_app, routeTable_proxyLayers.
    reflexivity.
  - apply build_length.
  - intros snapshot r. unfold build. rewrite in_flat_map. split.
    + intros [m [Hm Hr]]. apply ruleOf_In in Hr.
      destruct Hr as [b [u H]]. exists m, b, u. tauto.
    + intros [m [b [u [Hm H]]]]. exists m. split; [exact Hm|].
      apply ruleOf_In. exists b, u. exact H.
  - reflexivity.
Qed.

(** *** The router *)

Example mount_at_segment_boundary :
  mountMatches "/api/x" "/api/x/items" = true /\
  mountMatches "/api/x" "/api/x" = true /\
  mountMatches "/api/x" "/api/xy" = false /\
  mountMatches "/api/x/" "/api/x" = true /\
  mountMatches "/api/x" "/API/X/items" = true /\
  mountMatches "/" "/anything" = true.
Proof. repeat split; reflexivity. Qed.

Example own_endpoints_answered :
  handle envX (startGateway envX) (mkRequest GET "/health" "") =
    Served (respond 200 HealthBody) /\
  handle envX (startGateway envX) (mkRequest GET "/api/gateway/status" "") =
    Served (respond 200 (StatusBody "http://localhost:3001")) /\
  handle envX (startGateway envX) (mkRequest HEAD "/health" "") =
    Served (respond 200 NoBody) /\
  handle envX (startGateway envX) (mkRequest POST "/health" "") =
    Served (respond 404 (NotFoundBody "路由 /health 不存在")).
Proof. repeat split; reflexivity. Qed.

(** The proxy layers on their own: the first rule whose prefix matches
    takes the request. *)
Lemma dispatch_proxyLayers (env : Env) (table : list RouteRule) (req : Request) :
  dispatch env (map proxyLayer table) req =
  match firstMatch table (pathname req) with
  | Some r => proxy env (r_prefix r) (targetBaseUrl r) (moduleName r) req
  | None => Served (send req 404 FinalHandlerBody)
  end.
Proof.
  unfold firstMatch. induction table as [|r table IH]; [reflexivity|].
  cbn [map dispatch proxyLayer layerMatches handlerOf runHandler find].
  destruct (mountMatches (r_prefix r) (pathname req)); [reflexivity | exact IH].
Qed.

(** The layers of the loaded file answer every request themselves:
    whatever is added behind them is never entered. *)
Lemma dispatch_baseApp (env : Env) (extra : list Layer) (req : Request) :
  dispatch env (baseApp ++ extra) req =
  if isGetOrHead (method req) && routeMatches "/health" (pathname req)
  then Served (send req 200 HealthBody)
  else if isGetOrHead (method req) &&
          routeMatches "/api/gateway/status" (pathname req)
  then Served (send req 200 (StatusBody (MODULE_MARKET_URL env)))
  else Served (runNotFound req).
Proof.
  unfold baseApp.
  cbn [List.app dispatch layerMatches handlerOf runHandler].
  destruct (isGetOrHead (method req) && routeMatches "/health" (pathname req));
    [reflexivity|].
  destruct (isGetOrHead (method req) &&
            routeMatches "/api/gateway/status" (pathname req)); reflexivity.
Qed.

(** In the running gateway the 404 middleware, added while the file
    loads, stands before every proxy route, added by [startGateway]: a
    request other than the two endpoints of the gateway itself is
    answered 404 and nothing is forwarded. *)
Lemma catch_all_precedes_routes (env : Env) (req : Request) :
  ownEndpoint req = false ->
  handle env (startGateway env) req = Served (runNotFound req).
Proof.
  unfold handle, ownEndpoint. intros H.
  rewrite startGateway_app, dispatch_baseApp.
  rewrite andb_orb_distrib_r in H. apply orb_false_elim in H.
  destruct H as [-> ->]. reflexivity.
Qed.

(** The running gateway forwards no request at all. *)
Lemma nothing_is_forwarded (env : Env) (req : Request) :
  forwardedBy (handle env (startGateway env) req) = None.
Proof.
  unfold handle. rewrite startGateway_app, dispatch_baseApp.
  destruct (isGetOrHead (method req) && routeMatches "/health" (pathname req));
    [reflexivity|].
  destruct (isGetOrHead (method req) &&
            routeMatches "/api/gateway/status" (pathname req)); reflexivity.
Qed.

(** *** The proxy middleware *)

Section Proxy.

Variables (env : Env) (pfx target : string) (req : Request).

(** A module whose name [setHeader] takes: the request is sent, the
    answer of the backend is passed on, and a transport error is
    answered 502 by [onError] with the name of the module and the text
    of the error. *)
Lemma proxy_named (n : string) :
  validHeaderValue n = true ->
  proxy env pfx target (Some n) req =
  match upstream env (outgoing pfx target n req) with
  | Answered s payload =>
      Served (mkHandled (Some (outgoing pfx target n req))
                (mkResponse s (bodyFor (method req) (UpstreamBody payload))))
  | TransportError msg =>
      Served (mkHandled (Some (outgoing pfx target n req))
                (mkResponse 502
                   (bodyFor (method req)
                      (BadGatewayBody ("无法连接到服务: " ++ n)%string msg))))
  end.
Proof. intros H. unfold proxy, onProxyReq, outgoing. rewrite H. reflexivity. Qed.

(** A module without a name, or with a name [setHeader] refuses: the
    exception of [onProxyReq] ends the process. *)
Lemma proxy_nameless :
  proxy env pfx target None req = Crashed "ERR_HTTP_INVALID_HEADER_VALUE".
Proof. reflexivity. Qed.

Lemma proxy_refused_name (n : string) :
  validHeaderValue n = false ->
  proxy env pfx target (Some n) req = Crashed "ERR_INVALID_CHAR".
Proof. intros H. unfold proxy, onProxyReq. rewrite H. reflexivity. Qed.

Lemma pathRewrite_remainder (rest : string) :
  pathname req = (pfx ++ rest)%string ->
  pathRewrite pfx (originalUrl req) = (rest ++ search req)%string.
Proof.
  intros H. unfold pathRewrite, originalUrl.
  rewrite H, append_assoc. apply replace_prefix.
Qed.

(** The answer of a proxy depends on the backend it forwards to and on
    nothing else: two environments that agree on the requests sent to
    that target give the same answer, whatever the other backends
    do. *)
Lemma proxy_isolated (n : option string) (env' : Env) :
  (forall f, f_target f = target -> upstream env f = upstream env' f) ->
  proxy env pfx target n req = proxy env' pfx target n req.
Proof.
  intros H. unfold proxy. destruct (onProxyReq n) as [headers|code];
    [|reflexivity].
  rewrite (H (mkForwarded (method req) target
                (pathRewrite pfx (originalUrl req)) headers) eq_refl).
  reflexivity.
Qed.

End Proxy.

(** *** Route resolution *)

(** C1 in the running gateway, on the example of the specification.
    The registry serves the entry of module-x and its route is
    registered with a prefix that matches the path, yet
    [GET /api/x/items] is answered 404 by the 404 middleware and is not
    forwarded, where C1 has it forwarded to [http://x:9000] as
    [/items]. The proxy of the route, entered on its own, does remove
    the prefix and forward [/items]. [GET /api/unknown/items], which
    matches no route, is answered 404; and whatever the registry served
    and whatever the request, the running gateway forwards nothing. *)
Theorem C1_resolved_request_answered_404 :
  fetch envX = Ok [moduleX] /\
  routeTable (app (startGateway envX)) =
    [ mkRoute "/api/x" "http://x:9000" (Some "module-x") ] /\
  mountMatches "/api/x" (pathname getItemsX) = true /\
  handle envX (startGateway envX) getItemsX =
    Served (mkHandled None
              (mkResponse 404 (NotFoundBody "路由 /api/x/items 不存在"))) /\
  proxy envX "/api/x" "http://x:9000" (Some "module-x") getItemsX =
    Served (mkHandled
              (Some (mkForwarded GET "http://x:9000" "/items"
                       [ ("X-Gateway", "Cancer-API-Gateway");
                         ("X-Module-Name", "module-x") ]))
              (mkResponse 200 (UpstreamBody "ok"))) /\
  handle envX (startGateway envX) getUnknown =
    Served (mkHandled None
              (mkResponse 404 (NotFoundBody "路由 /api/unknown/items 不存在"))) /\
  (forall env req, forwardedBy (handle env (startGateway env) req) = None).
Proof.
  repeat split; try reflexivity. apply nothing_is_forwarded.
Qed.

(** *** A backend that cannot be reached *)

(** C4 in the running gateway, with module-x and module-y registered
    and the backend of module-x refusing connections: the request for
    module-x is answered 404 by the 404 middleware, not 502, and the
    request for the healthy module-y is answered 404 as well; neither
    is forwarded. The proxy of module-x, entered on its own, does
    answer 502 with the name of the module and the text of the error. *)
Theorem C4_unreachable_backend_answered_404 :
  routeTable (app (startGateway envXDown)) =
    [ mkRoute "/api/x" "http://x:9000" (Some "module-x");
      mkRoute "/api/module-y" "http://y:9100" (Some "module-y") ] /\
  upstream envXDown
    (mkForwarded GET "http://x:9000" "/items"
       [ ("X-Gateway", "Cancer-API-Gateway"); ("X-Module-Name", "module-x") ]) =
    TransportError "connect ECONNREFUSED x:9000" /\
  handle envXDown (startGateway envXDown) getItemsX =
    Served (mkHandled None
              (mkResponse 404 (NotFoundBody "路由 /api/x/items 不存在"))) /\
  handle envXDown (startGateway envXDown) getItemsY =
    Served (mkHandled None
              (mkResponse 404 (NotFoundBody "路由 /api/module-y/items 不存在"))) /\
  proxy envXDown "/api/x" "http://x:9000" (Some "module-x") getItemsX =
    Served (mkHandled
              (Some (mkForwarded GET "http://x:9000" "/items"
                       [ ("X-Gateway", "Cancer-API-Gateway");
                         ("X-Module-Name", "module-x") ]))
              (mkResponse 502
                 (BadGatewayBody "无法连接到服务: module-x"
                    "connect ECONNREFUSED x:9000"))).
Proof. repeat split; reflexivity. Qed.

(** *** Startup without the registry *)

Lemma degraded_route_table (env : Env) (msg : string) :
  fetch env = Throw msg ->
  fetchModulesFromMarket env = getDefaultModules /\
  routeTable (app (startGateway env)) = defaultTable /\
  listening (startGateway env) = true.
Proof.
  intros H. assert (E : fetchModulesFromMarket env = getDefaultModules).
  { unfold fetchModulesFromMarket. rewrite H. reflexivity. }
  split; [exact E|]. split; [|reflexivity].
  rewrite startGateway_routeTable, E. reflexivity.
Qed.

(** C5 in the running gateway, started while the registry refuses
    connections: the two default routes are registered and the server
    listens, but a request under the default prefix [/api/user] is
    answered 404 by the 404 middleware and is not forwarded. *)
Theorem C5_default_routes_answer_404 :
  fetch envMarketDown = Throw "connect ECONNREFUSED 127.0.0.1:3001" /\
  routeTable (app (startGateway envMarketDown)) = defaultTable /\
  listening (startGateway envMarketDown) = true /\
  firstMatch defaultTable (pathname getUsers) =
    Some (mkRoute "/api/user" "http://localhost:3002" (Some "module-user")) /\
  handle envMarketDown (startGateway envMarketDown) getUsers =
    Served (mkHandled None
              (mkResponse 404 (NotFoundBody "路由 /api/user/users 不存在"))).
Proof. repeat split; reflexivity. Qed.

(** *** The timer *)

Lemma ticks_inert (envs : list Env) (g : State) : ticks envs g = g.
Proof. revert g; induction envs as [|env envs IH]; intros g; simpl; auto. Qed.

(** C6, as stated, fails. The gateway started while the
    registry was down and holds the default table. At the next tick the
    registry is up and serves module-x: the refresh of the
    specification publishes the table built from it, but the table of
    the gateway after the tick is the default one still. *)
Lemma C6_counterexample :
  routeTable (app (startGateway envMarketDown)) = defaultTable /\
  fetch envX = Ok [moduleX] /\
  periodicRefresh envX (routeTable (app (startGateway envMarketDown))) =
    [ mkRoute "/api/x" "http://x:9000" (Some "module-x") ] /\
  routeTable (app (fst (tick envX (startGateway envMarketDown)))) = defaultTable.
Proof. repeat split; reflexivity. Qed.

(** C6, amended: the periodic timer only logs a line. Whatever the
    registry would serve, a tick leaves the gateway as it was, so after
    any number of ticks the route table is the one built at startup. *)
Theorem C6_periodic_tick_is_inert (env : Env) (g : State) :
  tick env g = (g, [LogRefreshing]) /\
  (forall envs, ticks envs g = g) /\
  (forall envs, routeTable (app (ticks envs g)) = routeTable (app g)) /\
  (forall envs,
     routeTable (app (ticks envs (startGateway env))) =
     build (fetchModulesFromMarket env)).
Proof.
  split; [reflexivity|]. split; [|split].
  - intros envs. apply ticks_inert.
  - intros envs. rewrite ticks_inert. reflexivity.
  - intros envs. rewrite ticks_inert. apply startGateway_routeTable.
Qed.

End GatewayProofs.

(* ================================================================== *)
(** ** More on the module market *)
(* ================================================================== *)

Module MarketMoreProofs.

Import Market Spec Fixture JSFacts Props.

(** *** The scanner *)

Lemma scanEntries_scannedAs (dir : string) (es : list Dirent) :
  Forall2 (scannedAs dir) (filter parsedDescriptor es) (fst (scanEntries dir es)).
Proof.
  induction es as [|e es IH]; [constructor|].
  rewrite MarketProofs.scanEntries_cons. cbn [fst filter].
  unfold parsedDescriptor at 1, scanEntry, scanned.
  destruct (isDirectory e && startsWith (d_name e) "module-"); [|exact IH].
  destruct (moduleJson e) as [|msg|d] eqn:E; try exact IH.
  cbn. constructor; [|exact IH]. exists d. auto.
Qed.

(** X1. The records of a scan are, one for one and in the order of the
    directory listing, the descriptors that parse, each with the path
    of its directory under the scanned directory and the results of the
    two probes; the name of that directory starts with [module-]. *)
Theorem scan_records_follow_the_directory (dir : string) (entries : list Dirent) :
  Forall2 (scannedAs dir) (filter parsedDescriptor entries)
    (fst (scanModules (mkFS dir (Ok entries)))) /\
  Forall (fun m => exists e,
            In e entries /\ isDirectory e = true /\
            startsWith (d_name e) "module-" = true /\
            path m = Some (join dir (d_name e)) /\
            hasBackend m = Some (backendDir e) /\
            hasFrontend m = Some (frontendDir e))
    (fst (scanModules (mkFS dir (Ok entries)))).
Proof.
  rewrite MarketProofs.scanModules_readable. cbn [fst].
  pose proof (scanEntries_scannedAs dir entries) as H. split; [exact H|].
  assert (Hsrc : Forall (fun e => In e entries /\ parsedDescriptor e = true)
                   (filter parsedDescriptor entries)).
  { apply Forall_forall. intros e He. apply filter_In in He. exact He. }
  induction H as [|e m es ms [d [_ ->]] _ IH]; [constructor|].
  inversion Hsrc as [|? ? [Hin Hp] Hrest]; subst.
  constructor; [|apply IH; exact Hrest].
  exists e. unfold parsedDescriptor, scanned in Hp.
  apply andb_true_iff in Hp. destruct Hp as [Hp _].
  apply andb_true_iff in Hp. destruct Hp as [Hd Hn].
  repeat split; auto.
Qed.

Lemma scanEntries_ignores (dir : string) (es : list Dirent) :
  scanEntries dir (filter scanned es) = scanEntries dir es.
Proof.
  induction es as [|e es IH]; [reflexivity|].
  cbn [filter]. destruct (scanned e) eqn:E.
  - rewrite !MarketProofs.scanEntries_cons, IH. reflexivity.
  - rewrite MarketProofs.scanEntries_cons, IH.
    unfold scanEntry. unfold scanned in E. rewrite E. cbn.
    destruct (scanEntries dir es). reflexivity.
Qed.

(** X2. Plain files, and directories whose name does not start with
    [module-], are invisible to the scan: with or without them the
    records and the log are the same, whatever they contain. *)
Theorem scan_ignores_other_entries (dir : string) (entries : list Dirent) :
  scanModules (mkFS dir (Ok (filter scanned entries))) =
  scanModules (mkFS dir (Ok entries)).
Proof.
  rewrite !MarketProofs.scanModules_readable, scanEntries_ignores.
  reflexivity.
Qed.

(** *** Lookup by name *)

(** X3. [GET /api/modules/:name] answers 404 exactly when no record of the
    snapshot has that name, and 200 otherwise; the record it answers
    with is a record of the snapshot and has the name asked for. *)
Theorem getModule_found_iff_present (n : string) (cache : Cache) :
  (status (getModule n cache) = 404 <-> forall m, In m cache -> name m <> Some n) /\
  (status (getModule n cache) = 200 <-> exists m, In m cache /\ name m = Some n) /\
  (forall m, getModule n cache = mkResponse 200 (ModuleDetail m) ->
             In m cache /\ name m = Some n).
Proof.
  assert (Heq : forall m, strictEqStr (name m) n = true <-> name m = Some n).
  { intros m. unfold strictEqStr. destruct (name m) as [x|].
    - rewrite String.eqb_eq. split; congruence.
    - split; discriminate. }
  unfold getModule.
  destruct (find (fun m => strictEqStr (name m) n) cache) as [m|] eqn:E.
  - apply find_some in E. destruct E as [Hin Hn]. apply Heq in Hn.
    cbn. split; [|split].
    + split; [discriminate|]. intros H. exfalso. exact (H m Hin Hn).
    + split; eauto.
    + intros m' H. injection H as <-. auto.
  - cbn. split; [|split].
    + split; [|reflexivity]. intros _ m Hin Hn.
      apply Heq in Hn. rewrite (find_none _ _ E m Hin) in Hn. discriminate.
    + split; [discriminate|]. intros [m [Hin Hn]].
      apply Heq in Hn. rewrite (find_none _ _ E m Hin) in Hn. discriminate.
    + discriminate.
Qed.

(** *** Statistics *)

Lemma own_setOwn_same (k : string) (v : Counter) (l : ByType) :
  own k (setOwn k v l) = Some v.
Proof.
  induction l as [|[k' v'] l IH]; cbn.
  - rewrite String.eqb_refl. reflexivity.
  - destruct (String.eqb k' k) eqn:E; cbn; rewrite E; [reflexivity | exact IH].
Qed.

Lemma own_setOwn_other (k t : string) (v : Counter) (l : ByType) :
  k <> t -> own k (setOwn t v l) = own k l.
Proof.
  intros Hne. induction l as [|[k' v'] l IH]; cbn.
  - assert (E : String.eqb t k = false) by (apply String.eqb_neq; congruence).
    rewrite E. reflexivity.
  - destruct (String.eqb k' t) eqn:E; cbn.
    + apply String.eqb_eq in E. subst k'.
      assert (E' : String.eqb t k = false) by (apply String.eqb_neq; congruence).
      rewrite E'. reflexivity.
    + destruct (String.eqb k' k); [reflexivity | exact IH].
Qed.

Lemma keys_setOwn (t k : string) (v : Counter) (l : ByType) :
  In k (map fst (setOwn t v l)) <-> k = t \/ In k (map fst l).
Proof.
  induction l as [|[k' c] l IH]; cbn.
  - intuition congruence.
  - destruct (String.eqb k' t) eqn:E; cbn.
    + apply String.eqb_eq in E. subst k'. intuition congruence.
    + rewrite IH. intuition congruence.
Qed.

Lemma NoDup_setOwn (t : string) (v : Counter) (l : ByType) :
  NoDup (map fst l) -> NoDup (map fst (setOwn t v l)).
Proof.
  induction l as [|[k c] l IH]; cbn; intros H.
  - constructor; [intros [] | constructor].
  - inversion H as [|? ? Hk Hl]; subst.
    destruct (String.eqb k t) eqn:E; cbn.
    + constructor; assumption.
    + constructor; [|apply IH; exact Hl].
      rewrite keys_setOwn. intros [-> | Hin]; [|contradiction].
      rewrite String.eqb_refl in E. discriminate.
Qed.

Lemma sumCounts_setOwn (t : string) (m : nat) (l : ByType) :
  sumCounts (setOwn t (Count m) l) +
    match own t l with Some (Count n) => n | _ => 0 end =
  sumCounts l + m.
Proof.
  induction l as [|[k c] l IH]; cbn.
  - lia.
  - destruct (String.eqb k t) eqn:E; cbn.
    + destruct c; lia.
    + destruct c; lia.
Qed.

(** What [bump] leaves behind is [byType] itself or [byType] with the
    key of the record assigned. *)
Lemma bump_cases (t : string) (l : ByType) :
  bump t l = l \/ exists v, bump t l = setOwn t v l.
Proof.
  unfold bump. destruct (own t l) as [[n|s]|].
  - right. eauto.
  - destruct (truthy (Some s)); right; eauto.
  - destruct (inherited t).
    + destruct (String.eqb t "__proto__"); [left; reflexivity | right; eauto].
    + right. eauto.
Qed.

Lemma own_bump_other (k t : string) (l : ByType) :
  k <> t -> own k (bump t l) = own k l.
Proof.
  intros Hne. destruct (bump_cases t l) as [-> | [v ->]]; [reflexivity|].
  apply own_setOwn_other. exact Hne.
Qed.

Lemma keys_bump (t k : string) (l : ByType) :
  In k (map fst (bump t l)) -> k = t \/ In k (map fst l).
Proof.
  destruct (bump_cases t l) as [-> | [v ->]]; [auto|]. apply keys_setOwn.
Qed.

Lemma NoDup_bump (t : string) (l : ByType) :
  NoDup (map fst l) -> NoDup (map fst (bump t l)).
Proof.
  destruct (bump_cases t l) as [-> | [v ->]]; [auto|]. apply NoDup_setOwn.
Qed.

(** The number a [byType] object holds for a key: 0 when it holds none. *)
Lemma own_bump_same (t : string) (l : ByType) :
  plainKey t ->
  (own t l = None \/ exists n, own t l = Some (Count (S n))) ->
  (own t l = None -> own t (bump t l) = Some (Count 1)) /\
  (forall n, own t l = Some (Count n) -> own t (bump t l) = Some (Count (n + 1))).
Proof.
  intros Hp _. unfold plainKey in Hp. unfold bump. split.
  - intros E. rewrite E, Hp. apply own_setOwn_same.
  - intros n E. rewrite E. apply own_setOwn_same.
Qed.

(** The grouping loop, from any accumulator in which the keys that do
    not name a property of [Object.prototype] hold a positive number. *)
Lemma countByType_from (cache : Cache) (acc : ByType) :
  (forall t, plainKey t ->
             own t acc = None \/ exists n, own t acc = Some (Count (S n))) ->
  let byType := fold_left (fun a m => bump (typeKey m) a) cache acc in
  (forall t, plainKey t ->
     own t byType =
     match List.length (filter (fun m => String.eqb (typeKey m) t) cache),
           own t acc with
     | O, v => v
     | S k, Some (Count n) => Some (Count (n + S k))
     | S k, _ => Some (Count (S k))
     end) /\
  (forall t, In t (map fst byType) ->
             In t (map fst acc) \/ exists m, In m cache /\ typeKey m = t) /\
  (NoDup (map fst acc) -> NoDup (map fst byType)) /\
  ((forall m, In m cache -> plainKey (typeKey m)) ->
   sumCounts byType = sumCounts acc + List.length cache).
Proof.
  revert acc; induction cache as [|m cache IH]; intros acc J; cbn [fold_left].
  - cbn. repeat split; auto; intros; lia.
  - assert (J' : forall t, plainKey t ->
                   own t (bump (typeKey m) acc) = None \/
                   exists n, own t (bump (typeKey m) acc) = Some (Count (S n))).
    { intros t Hp. destruct (string_dec t (typeKey m)) as [-> | Hne].
      - destruct (own_bump_same acc Hp (J _ Hp)) as [H0 H1].
        destruct (J _ Hp) as [E | [n E]].
        + right. exists 0. apply H0. exact E.
        + right. exists (S n). rewrite (H1 _ E). f_equal. f_equal. lia.
      - rewrite own_bump_other by exact Hne. apply J. exact Hp. }
    destruct (IH (bump (typeKey m) acc) J') as [Hl [Hk [Hn Hs]]].
    cbn zeta in *. repeat split.
    + intros t Hp. rewrite (Hl t Hp). cbn [filter].
      destruct (String.eqb (typeKey m) t) eqn:E.
      * apply String.eqb_eq in E. subst t.
        destruct (own_bump_same acc Hp (J _ Hp)) as [H0 H1].
        cbn [List.length].
        destruct (J _ Hp) as [E | [n E]].
        -- rewrite (H0 E), E.
           destruct (List.length (filter _ cache));
             solve [reflexivity | f_equal; f_equal; lia].
        -- rewrite (H1 _ E), E.
           destruct (List.length (filter _ cache));
             solve [reflexivity | f_equal; f_equal; lia].
      * rewrite own_bump_other;
          [reflexivity | intros ->; rewrite String.eqb_refl in E; discriminate].
    + intros t Hin. destruct (Hk t Hin) as [Hb | [m' [Hm' Ht]]].
      * apply keys_bump in Hb. destruct Hb as [-> | Hb]; [|left; exact Hb].
        right. exists m. split; [left; reflexivity | reflexivity].
      * right. exists m'. split; [right; exact Hm' | exact Ht].
    + intros H. apply Hn, NoDup_bump, H.
    + intros Hall. rewrite Hs by (intros m' Hm'; apply Hall; right; exact Hm').
      assert (Hp : plainKey (typeKey m)) by (apply Hall; left; reflexivity).
      assert (Hb : sumCounts (bump (typeKey m) acc) = sumCounts acc + 1).
      { unfold bump. pose proof Hp as Hi. unfold plainKey in Hi.
        destruct (J _ Hp) as [E | [n E]]; rewrite E.
        - rewrite Hi.
          pose proof (sumCounts_setOwn (typeKey m) 1 acc) as H1.
          rewrite E in H1. lia.
        - pose proof (sumCounts_setOwn (typeKey m) (S n + 1) acc) as H2.
          rewrite E in H2. lia. }
      rewrite Hb. cbn [List.length]. lia.
Qed.

Lemma filter_split_length {A} (f : A -> bool) (l : list A) :
  List.length (filter f l) + List.length (filter (fun x => negb (f x)) l) =
  List.length l.
Proof.
  induction l as [|x l IH]; [reflexivity|].
  simpl. destruct (f x); simpl; lia.
Qed.

Lemma filter_length_le {A} (f : A -> bool) (l : list A) :
  List.length (filter f l) <= List.length l.
Proof.
  induction l as [|x l IH]; [reflexivity|].
  simpl. destruct (f x); simpl; lia.
Qed.

(** A type that names a property of [Object.prototype] is not counted:
    [__proto__] leaves no key, and [constructor] holds a text. *)
Example inherited_keys_are_not_counted :
  countByType [moduleProto; moduleNoEnabled; moduleCtor; moduleProto; moduleCtor] =
  [ ("tool", Count 1);
    ("constructor", Text "function Object() { [native code] }11") ].
Proof. reflexivity. Qed.

(** X4. The numbers of [GET /api/stats] add up: enabled and disabled
    together are the total, and the counts with a backend or a frontend
    do not exceed it. The keys of [byType] are distinct and each is the
    type of a record. For a type that does not name a property of
    [Object.prototype], [byType] has a key exactly when a record has
    the type, and it holds the number of those records, the records
    without a type counting under the key [unknown]; when no record has
    a type that names such a property, the numbers of [byType] sum to
    the total. *)
Theorem stats_add_up (cache : Cache) :
  exists en dis wb wf byType,
    getStats cache =
      mkResponse 200 (StatsBody (List.length cache) en dis wb wf byType) /\
    en + dis = List.length cache /\
    wb <= List.length cache /\
    wf <= List.length cache /\
    NoDup (map fst byType) /\
    (forall t, In t (map fst byType) -> exists m, In m cache /\ typeKey m = t) /\
    (forall t, plainKey t ->
               own t byType =
               counted (List.length
                          (filter (fun m => String.eqb (typeKey m) t) cache))) /\
    ((forall m, In m cache -> plainKey (typeKey m)) ->
     sumCounts byType = List.length cache) /\
    (forall m, truthy (type m) = false -> typeKey m = "unknown") /\
    plainKey "unknown".
Proof.
  destruct (@countByType_from cache []) as [Hl [Hk [Hn Hs]]];
    [intros t _; left; reflexivity|].
  cbn zeta in *.
  do 5 eexists. split; [reflexivity|].
  split; [apply filter_split_length|].
  split; [apply filter_length_le|].
  split; [apply filter_length_le|].
  split; [apply Hn; constructor|].
  split.
  { intros t Hin. destruct (Hk t Hin) as [[] | H]. exact H. }
  split.
  { intros t Hp. unfold countByType, counted. rewrite (Hl t Hp). cbn [own].
    destruct (List.length (filter _ cache)); reflexivity. }
  split; [intros Hall; apply (Hs Hall)|].
  split; [|reflexivity].
  intros m H. unfold typeKey. rewrite H. reflexivity.
Qed.

(** *** Listing: what the answer holds, and when the request fails *)

Lemma filterM_Ok_filter {A} (f : A -> result bool) (l r : list A) :
  filterM f l = Ok r ->
  r = filter (fun x => match f x with Ok true => true | _ => false end) l.
Proof.
  revert r; induction l as [|x l IH]; intros r H; simpl in *.
  - congruence.
  - destruct (f x) as [b|]; [|discriminate]. simpl in H.
    destruct (filterM f l) as [r'|]; [|discriminate]. simpl in H.
    injection H as <-. rewrite (IH r' eq_refl). destruct b; reflexivity.
Qed.

Lemma filterM_Throw_iff {A} (f : A -> result bool) (l : list A) :
  (exists e, filterM f l = Throw e) <-> (exists x e, In x l /\ f x = Throw e).
Proof.
  induction l as [|x l IH]; simpl.
  - split; [intros [e H]; discriminate | intros [x [e [[] _]]]].
  - destruct (f x) as [b|e0] eqn:E; simpl.
    + destruct (filterM f l) as [r|e1]; simpl.
      * split; [intros [e H]; discriminate|].
        intros [y [e [[<- | Hin] Hy]]]; [congruence|].
        assert (H : exists e, @Ok (list A) r = Throw e) by (apply IH; eauto).
        destruct H as [e' H]; discriminate.
      * split; [|eauto]. intros _.
        assert (H : exists y e, In y l /\ f y = Throw e) by (apply IH; eauto).
        destruct H as [y [e [Hin Hy]]]. eauto.
    + split; [|eauto]. intros _. exists x, e0. auto.
Qed.

Lemma searchCallback_throws {F : CaseFolding} (s : string) (m : Module) :
  s <> EmptyString ->
  (exists e, searchCallback (toLowerCase s) m = Throw e) <-> searchThrows s m.
Proof.
  intros Hne. unfold searchCallback, searchThrows.
  destruct (name m) as [n|]; cbn [toLowerCaseOf bind].
  - pose proof (MarketProofs.fieldTest_iff s (Some n)) as Hn. cbn in Hn.
    destruct (includes (toLowerCase n) (toLowerCase s)) eqn:En.
    + split; [intros [e H]; discriminate|].
      intros [H | [n' [E [Hno _]]]]; [discriminate|].
      injection E as <-. exfalso. apply Hno.
      destruct Hn as [Hn _]. destruct (Hn eq_refl) as [x [E Hx]].
      injection E as <-. exact Hx.
    + destruct (displayName m) as [d|]; cbn [toLowerCaseOf bind].
      * split; [|intros [H | [n' [_ [_ H]]]]; discriminate].
        intros [e H].
        destruct (includes (toLowerCase d) (toLowerCase s)); [discriminate|].
        destruct (truthy (description m)) eqn:Ed; [|discriminate].
        apply truthy_iff in Ed. destruct Ed as [x [Ex _]].
        rewrite Ex in H. discriminate.
      * split; [|eauto]. intros _. right. exists n.
        repeat split; auto. intros Hci.
        assert (false = true) by (apply Hn; eauto).
        discriminate.
  - split; [auto | eauto].
Qed.


(** X6. Whatever the parameters, a list that [GET /api/modules] answers
    with is the snapshot with some records left out: the records keep
    their order and none is added or changed. *)
Theorem listing_selects_from_the_snapshot {F : CaseFolding}
    (q : Query) (cache : Cache) (ms : list Module) :
  getModules q cache = mkResponse 200 (ModuleList ms) ->
  exists keep : Module -> bool, ms = filter keep cache.
Proof.
  unfold getModules.
  destruct (filterModules q cache) as [r|] eqn:E; [|discriminate].
  intros H. injection H as <-. unfold filterModules in E.
  set (l1 := if truthy (q_type q) then _ else _) in E.
  set (l2 := match q_enabled q with Some _ => _ | None => _ end) in E.
  assert (E2 : l2 = filter (enabledTest q) l1).
  { subst l2. unfold enabledTest. destruct (q_enabled q);
      [reflexivity | symmetry; apply MarketProofs.filter_all]. }
  assert (E1 : l1 = filter (typeTest q) cache).
  { subst l1. unfold typeTest. destruct (truthy (q_type q));
      [reflexivity | symmetry; apply MarketProofs.filter_all]. }
  destruct (truthy (q_search q)).
  - apply filterM_Ok_filter in E. rewrite E, E2, E1.
    rewrite !MarketProofs.filter_filter_andb. eauto.
  - injection E as <-. rewrite E2, E1, MarketProofs.filter_filter_andb. eauto.
Qed.

(** A search for [tool] over the sample snapshot keeps its second
    record, the one whose description holds the word. *)
Lemma listing_selects_from_the_snapshot_witness :
  exists keep : Module -> bool, [moduleY] = filter keep sampleCache.
Proof.
  apply (@listing_selects_from_the_snapshot asciiFolding
           (mkQuery None None (Some "tool")) sampleCache [moduleY]).
  reflexivity.
Defined.

(** *** From the scan to the lookup *)

(** X7. A descriptor that parses and has a name can be looked up by that
    name once the store is scanned: the answer is 200 with a record of
    the snapshot of that name (the first, when several directories
    describe a module of that name). *)
Theorem scanned_module_can_be_looked_up
    (dir : string) (entries : list Dirent) (e : Dirent) (d : Module) (n : string) :
  In e entries ->
  scanned e = true ->
  moduleJson e = Parsed d ->
  name d = Some n ->
  exists m,
    getModule n (current (init (mkFS dir (Ok entries)))) =
      mkResponse 200 (ModuleDetail m) /\
    name m = Some n /\
    In m (init (mkFS dir (Ok entries))).
Proof.
  intros Hin Hs Hp Hn. unfold init, current, getModule.
  rewrite MarketProofs.scanModules_readable. cbn [fst].
  pose proof (MarketProofs.scanEntries_keeps dir entries e Hin Hs Hp) as Hk.
  destruct (find (fun m => strictEqStr (name m) n) (fst (scanEntries dir entries)))
    as [m|] eqn:E.
  - apply find_some in E. destruct E as [Hm Hb]. exists m.
    repeat split; auto. unfold strictEqStr in Hb.
    destruct (name m) as [x|]; [|discriminate].
    apply String.eqb_eq in Hb. congruence.
  - pose proof (find_none _ _ E _ Hk) as Hb. cbn in Hb.
    unfold strictEqStr in Hb. rewrite Hn, String.eqb_refl in Hb. discriminate.
Qed.

(** The second of two directories that describe [module-dup]: the
    lookup answers with a record of that name. *)
Lemma scanned_module_can_be_looked_up_witness :
  exists m,
    getModule "module-dup" (current (init dupStore)) =
      mkResponse 200 (ModuleDetail m) /\
    name m = Some "module-dup" /\
    In m (init dupStore).
Proof.
  apply (@scanned_module_can_be_looked_up root dupEntries
           (dirent "module-dup-2" (Parsed dupSecond)) dupSecond "module-dup").
  - right. left. reflexivity.
  - reflexivity.
  - reflexivity.
  - reflexivity.
Defined.

End MarketMoreProofs.

(* ================================================================== *)
(** ** The market page against the market API *)
(* ================================================================== *)

Module MarketUIProofs.

Import Market Fixture JSFacts Props.

(** X8. The list the market page shows for a type selector and a search box
    is the list [GET /api/modules] would answer with for the same type
    (none for the selector ['all']) and the same search text, and the
    page fails on the same records as the API does. *)
Theorem page_filter_agrees_with_api {F : CaseFolding}
    (modules : list Module) (filterType searchQuery : string) :
  filterType <> EmptyString ->
  MarketUI.filteredModules modules filterType searchQuery =
  filterModules (mkQuery (selected filterType) None (Some searchQuery)) modules.
Proof.
  intros Hne. unfold MarketUI.filteredModules, filterModules, selected.
  cbn [q_type q_enabled q_search].
  destruct (String.eqb filterType "all"); cbn [negb truthy toStr].
  - reflexivity.
  - destruct filterType as [|c ft]; [congruence | reflexivity].
Qed.

Section PageExamples.

#[local] Existing Instance asciiFolding.

(** The page with the selector on [tool] and the search text [REPORT]
    over the sample snapshot. *)
Lemma page_filter_agrees_with_api_witness :
  MarketUI.filteredModules sampleCache "tool" "REPORT" =
  filterModules (mkQuery (Some "tool") None (Some "REPORT")) sampleCache.
Proof.
  apply (@page_filter_agrees_with_api asciiFolding sampleCache "tool" "REPORT").
  discriminate.
Defined.

End PageExamples.

End MarketUIProofs.

(* ================================================================== *)
(** ** More on the gateway *)
(* ================================================================== *)

Module GatewayMoreProofs.

Import Gateway Spec Fixture JSFacts Props.

(** *** The route table at startup *)

(** X9. The route table the gateway starts with is built from the list the
    registry answered with, and from the hardcoded list only when the
    fetch failed: a registry that answers with no module that has a
    backend URL, the empty list included, leaves the gateway without a
    route. *)
Theorem fallback_only_when_fetch_fails (env : Env) :
  routeTable (app (startGateway env)) =
    match fetch env with
    | Ok snapshot => build snapshot
    | Throw _ => defaultTable
    end /\
  (forall snapshot,
     fetch env = Ok snapshot ->
     (forall m, In m snapshot -> hasBackendUrl m = false) ->
     routeTable (app (startGateway env)) = []).
Proof.
  assert (H : routeTable (app (startGateway env)) =
              match fetch env with
              | Ok snapshot => build snapshot
              | Throw _ => defaultTable
              end).
  { rewrite GatewayProofs.startGateway_routeTable. unfold fetchModulesFromMarket.
    destruct (fetch env); reflexivity. }
  split; [exact H|]. intros snapshot E Hno. rewrite H, E.
  apply length_zero_iff_nil. rewrite GatewayProofs.build_length.
  clear H E. induction snapshot as [|m ms IH]; [reflexivity|].
  cbn [filter]. rewrite (Hno m (or_introl eq_refl)).
  apply IH. intros m' Hm'. apply Hno. right. exact Hm'.
Qed.

(** X10. Every route the gateway registers has a non-empty prefix and a
    non-empty target and carries the name of a module of the list it
    was built from; there are never more routes than modules. *)
Theorem registered_routes_are_well_formed (env : Env) (r : RouteRule) :
  In r (routeTable (setupDynamicRoutes env [])) ->
  r_prefix r <> EmptyString /\
  targetBaseUrl r <> EmptyString /\
  (exists m, In m (fetchModulesFromMarket env) /\ moduleName r = name m) /\
  List.length (routeTable (setupDynamicRoutes env [])) <=
    List.length (fetchModulesFromMarket env).
Proof.
  unfold setupDynamicRoutes.
  rewrite GatewayProofs.registerModules_build, GatewayProofs.routeTable_app,
    GatewayProofs.routeTable_proxyLayers.
  cbn [routeTable flat_map List.app]. intros Hin.
  unfold build in Hin. apply in_flat_map in Hin. destruct Hin as [m [Hm Hr]].
  apply GatewayProofs.ruleOf_In in Hr.
  destruct Hr as [b [u [Hb [Hu [Hne [Ht [Hn Hp]]]]]]].
  split; [|split; [|split]].
  - destruct Hp as [[[s [Hs Hsne]] Hp] | [_ Hp]].
    + rewrite Hp in Hs. injection Hs as <-. exact Hsne.
    + rewrite Hp. discriminate.
  - rewrite Ht. exact Hne.
  - eauto.
  - rewrite GatewayProofs.build_length. apply MarketMoreProofs.filter_length_le.
Qed.

(** The route of module-x in the table built from the example entry. *)
Lemma registered_routes_are_well_formed_witness :
  "/api/x" <> EmptyString /\
  "http://x:9000" <> EmptyString /\
  (exists m, In m [moduleX] /\ Some "module-x" = name m) /\
  1 <= 1.
Proof.
  apply (@registered_routes_are_well_formed envX
           (mkRoute "/api/x" "http://x:9000" (Some "module-x"))).
  left. reflexivity.
Defined.

(** *** Resolution among the registered routes *)

Lemma firstMatch_app (l1 l2 : list RouteRule) (p : string) :
  firstMatch (l1 ++ l2) p =
  match firstMatch l1 p with
  | Some r => Some r
  | None => firstMatch l2 p
  end.
Proof.
  unfold firstMatch. induction l1 as [|r l1 IH]; [reflexivity|].
  cbn [List.app find]. destruct (mountMatches (r_prefix r) p); [reflexivity | exact IH].
Qed.

Lemma firstMatch_cons (r : RouteRule) (l : list RouteRule) (p : string) :
  firstMatch (r :: l) p =
  if mountMatches (r_prefix r) p then Some r else firstMatch l p.
Proof. reflexivity. Qed.

(** X11. A route is never chosen for a request that a route registered
    before it matches as well: the table with the later route taken out
    resolves the request in the same way. Of two routes with one prefix
    only the first ever receives a request. *)
Theorem earlier_route_shadows_later
    (env : Env) (l1 l2 l3 : list RouteRule) (r1 r2 : RouteRule) (req : Request) :
  (mountMatches (r_prefix r2) (pathname req) = true ->
   mountMatches (r_prefix r1) (pathname req) = true) ->
  dispatch env (map proxyLayer (l1 ++ r1 :: l2 ++ r2 :: l3)) req =
  dispatch env (map proxyLayer (l1 ++ r1 :: l2 ++ l3)) req.
Proof.
  intros H. rewrite !GatewayProofs.dispatch_proxyLayers.
  assert (E : firstMatch (l1 ++ r1 :: l2 ++ r2 :: l3) (pathname req) =
              firstMatch (l1 ++ r1 :: l2 ++ l3) (pathname req)).
  { rewrite !firstMatch_app, !firstMatch_cons, !firstMatch_app, firstMatch_cons.
    destruct (firstMatch l1 (pathname req)); [reflexivity|].
    destruct (mountMatches (r_prefix r1) (pathname req)) eqn:E1; [reflexivity|].
    destruct (firstMatch l2 (pathname req)); [reflexivity|].
    destruct (mountMatches (r_prefix r2) (pathname req)); [|reflexivity].
    specialize (H eq_refl). discriminate. }
  rewrite E. reflexivity.
Qed.

(** With [/api] registered before [/api/x], the route of module-x plays
    no part in the answer to [GET /api/x/items]. *)
Lemma earlier_route_shadows_later_witness :
  dispatch envOverlap
    (map proxyLayer
       ([] ++ mkRoute "/api" "http://a:8000" (Some "module-a")
           :: [] ++ mkRoute "/api/x" "http://x:9000" (Some "module-x") :: []))
    getItemsX =
  dispatch envOverlap
    (map proxyLayer
       ([] ++ mkRoute "/api" "http://a:8000" (Some "module-a") :: [] ++ []))
    getItemsX.
Proof.
  apply (@earlier_route_shadows_later envOverlap [] [] []
           (mkRoute "/api" "http://a:8000" (Some "module-a"))
           (mkRoute "/api/x" "http://x:9000" (Some "module-x")) getItemsX).
  intros _. reflexivity.
Defined.

Lemma longestPrefixMatch_In (table : list RouteRule) (p : string) (r : RouteRule) :
  longestPrefixMatch table p = Some r -> In r table.
Proof.
  revert r; induction table as [|r0 table IH]; intros r H; simpl in H.
  - discriminate.
  - destruct (mountMatches (r_prefix r0) p).
    + destruct (longestPrefixMatch table p) as [r'|].
      * destruct (String.length (r_prefix r0) <? String.length (r_prefix r'))%nat;
          injection H as <-; [right; apply IH; reflexivity | left; reflexivity].
      * injection H as <-. left. reflexivity.
    + right. apply IH. exact H.
Qed.

(** In a table whose longer prefixes come first, the first match is the
    longest-prefix match of the specification. *)
Lemma firstMatch_longestPrefixMatch (table : list RouteRule) (p : string) :
  longestFirst table ->
  firstMatch table p = longestPrefixMatch table p.
Proof.
  unfold firstMatch. induction table as [|r table IH]; intros H; [reflexivity|].
  destruct H as [Hr Hrest]. cbn [find longestPrefixMatch].
  destruct (mountMatches (r_prefix r) p); [|apply IH; exact Hrest].
  destruct (longestPrefixMatch table p) as [r'|] eqn:E; [|reflexivity].
  apply longestPrefixMatch_In in E. rewrite Forall_forall in Hr.
  specialize (Hr r' E).
  destruct (String.length (r_prefix r) <? String.length (r_prefix r'))%nat eqn:El;
    [|reflexivity].
  apply Nat.ltb_lt in El. lia.
Qed.

(** The first match of a table: a rule of the table that matches, with
    no rule before it that does. *)
Lemma firstMatch_Some (table : list RouteRule) (p : string) (r : RouteRule) :
  firstMatch table p = Some r ->
  In r table /\ mountMatches (r_prefix r) p = true.
Proof.
  unfold firstMatch. intros H. apply find_some in H. exact H.
Qed.

Lemma firstMatch_None (table : list RouteRule) (p : string) :
  firstMatch table p = None <->
  forall r, In r table -> mountMatches (r_prefix r) p = false.
Proof.
  unfold firstMatch. split.
  - intros H r Hr. apply (find_none _ _ H r Hr).
  - intros H. induction table as [|r table IH]; [reflexivity|].
    cbn. rewrite (H r (or_introl eq_refl)). apply IH.
    intros r' Hr'. apply H. right. exact Hr'.
Qed.

Lemma firstMatch_is_longest (table : list RouteRule) (p : string) (r : RouteRule) :
  longestFirst table ->
  firstMatch table p = Some r ->
  forall r', In r' table -> mountMatches (r_prefix r') p = true ->
             String.length (r_prefix r') <= String.length (r_prefix r).
Proof.
  induction table as [|r0 table IH]; intros Hlf H r' Hin Hm; [contradiction|].
  destruct Hlf as [Hr Hrest]. rewrite firstMatch_cons in H.
  destruct (mountMatches (r_prefix r0) p) eqn:E.
  - injection H as <-. destruct Hin as [<- | Hin]; [lia|].
    rewrite Forall_forall in Hr. apply Hr. exact Hin.
  - destruct Hin as [<- | Hin]; [congruence|].
    apply (IH Hrest H r' Hin Hm).
Qed.

Lemma setupDynamicRoutes_alone (env : Env) :
  setupDynamicRoutes env [] = map proxyLayer (build (fetchModulesFromMarket env)) /\
  routeTable (setupDynamicRoutes env []) = build (fetchModulesFromMarket env).
Proof.
  unfold setupDynamicRoutes.
  rewrite GatewayProofs.registerModules_build. cbn [List.app].
  split; [reflexivity | apply GatewayProofs.routeTable_proxyLayers].
Qed.



(** *** One backend and the others *)

(** X14. The answer to a request depends on the backend of the route the
    request resolves to, and on no other: whatever the backends at
    other targets do, answer or fail, the answer is the same. *)
Theorem answer_depends_on_resolved_backend_only
    (env env' : Env) (table : list RouteRule) (req : Request) :
  (forall r f,
     firstMatch table (pathname req) = Some r ->
     f_target f = targetBaseUrl r ->
     upstream env f = upstream env' f) ->
  dispatch env (map proxyLayer table) req =
  dispatch env' (map proxyLayer table) req.
Proof.
  intros H. rewrite !GatewayProofs.dispatch_proxyLayers.
  destruct (firstMatch table (pathname req)) as [r|]; [|reflexivity].
  apply GatewayProofs.proxy_isolated. intros f Hf. apply (H r f eq_refl Hf).
Qed.

(** Module-x down or up, the request for module-y gets the same
    answer. *)
Lemma answer_depends_on_resolved_backend_only_witness :
  dispatch envXDown (map proxyLayer (build [moduleX; moduleY])) getItemsY =
  dispatch envX (map proxyLayer (build [moduleX; moduleY])) getItemsY.
Proof.
  apply (@answer_depends_on_resolved_backend_only envXDown envX
           (build [moduleX; moduleY]) getItemsY).
  intros r f Hr Hf. cbn in Hr. injection Hr as <-. cbn in Hf.
  cbn. unfold backendXDown, everyBackendUp. rewrite Hf. reflexivity.
Defined.



(** A module without a name: the first request that enters its route
    ends the process. *)
Example nameless_module_ends_the_process :
  routeTable (setupDynamicRoutes envNameless []) =
    [ mkRoute "/api/n" "http://n:9200" None ] /\
  dispatch envNameless (setupDynamicRoutes envNameless [])
    (mkRequest GET "/api/n/items" "") =
  Crashed "ERR_HTTP_INVALID_HEADER_VALUE".
Proof. split; reflexivity. Qed.

(** *** Rewriting the path *)

Lemma replace_absent (s pat : string) :
  includes s pat = false -> replace s pat = s.
Proof.
  induction s as [|c s IH]; cbn [includes replace]; intros H;
    apply orb_false_elim in H; destruct H as [Hs Hi];
    unfold startsWith in Hs;
    destruct (dropPrefix pat _); try discriminate; [reflexivity|].
  rewrite (IH Hi). reflexivity.
Qed.

Lemma replace_first (s pat : string) :
  includes s pat = true ->
  exists a b,
    s = (a ++ pat ++ b)%string /\
    replace s pat = (a ++ b)%string /\
    forall a' b', s = (a' ++ pat ++ b')%string ->
                  String.length a <= String.length a'.
Proof.
  induction s as [|c s IH]; cbn [includes replace]; intros H.
  - rewrite orb_false_r in H. unfold startsWith in H.
    destruct (dropPrefix pat "") as [rest|] eqn:E; [|discriminate].
    apply dropPrefix_Some in E. exists EmptyString, rest.
    repeat split; auto. intros; cbn; lia.
  - unfold startsWith in H.
    destruct (dropPrefix pat (String c s)) as [rest|] eqn:E.
    + apply dropPrefix_Some in E. exists EmptyString, rest.
      repeat split; auto. intros; cbn; lia.
    + cbn in H. destruct (IH H) as [a [b [Hs [Hr Hmin]]]].
      exists (String c a), b. cbn. rewrite Hr, <- Hs.
      repeat split; auto. intros a' b' Ha'.
      destruct a' as [|c' a']; cbn in Ha'.
      * rewrite Ha', dropPrefix_app in E. discriminate.
      * injection Ha' as _ Ha'. specialize (Hmin a' b' Ha'). cbn. lia.
Qed.

(** X15. The path rewriting of a route takes the first occurrence of the
    prefix out of the URL, wherever it stands, and leaves a URL in which
    the prefix does not occur as it is. *)
Theorem pathRewrite_takes_out_first_occurrence (pfx url : string) :
  (includes url pfx = false -> pathRewrite pfx url = url) /\
  (includes url pfx = true ->
   exists a b,
     url = (a ++ pfx ++ b)%string /\
     pathRewrite pfx url = (a ++ b)%string /\
     forall a' b', url = (a' ++ pfx ++ b')%string ->
                   String.length a <= String.length a').
Proof.
  unfold pathRewrite. split; [apply replace_absent | apply replace_first].
Qed.



(** *** The gateway's own endpoints *)

(** X17. Whatever the registry answered at startup and whatever the backends
    do, a [GET] on [/health] is answered 200 with the health body and
    on [/api/gateway/status] with the configured address of the module
    market, in any letter case and with or without a trailing slash; a
    [HEAD] on either is answered 200 without a body. *)
Theorem own_endpoints_always_answer (env : Env) (req : Request) :
  (routeMatches "/health" (pathname req) = true ->
   (method req = GET ->
    handle env (startGateway env) req = Served (respond 200 HealthBody)) /\
   (method req = HEAD ->
    handle env (startGateway env) req = Served (respond 200 NoBody))) /\
  (routeMatches "/api/gateway/status" (pathname req) = true ->
   (method req = GET ->
    handle env (startGateway env) req =
    Served (respond 200 (StatusBody (MODULE_MARKET_URL env)))) /\
   (method req = HEAD ->
    handle env (startGateway env) req = Served (respond 200 NoBody))).
Proof.
  unfold handle.
  rewrite GatewayProofs.startGateway_app, GatewayProofs.dispatch_baseApp.
  unfold send. split; intros H.
  - rewrite H. split; intros ->; reflexivity.
  - assert (E : routeMatches "/health" (pathname req) = false).
    { unfold routeMatches in *. apply orb_true_iff in H.
      destruct H as [H | H]; apply String.eqb_eq in H; rewrite H; reflexivity. }
    rewrite E, H. split; intros ->; reflexivity.
Qed.

(** [HEAD /Health/] on a gateway that started without the registry. *)
Lemma own_endpoints_always_answer_witness :
  handle envMarketDown (startGateway envMarketDown)
    (mkRequest HEAD "/Health/" "") = Served (respond 200 NoBody).
Proof.
  apply (proj2 (proj1 (@own_endpoints_always_answer envMarketDown
                         (mkRequest HEAD "/Health/" "")) eq_refl)).
  reflexivity.
Defined.

End GatewayMoreProofs.

(* ================================================================== *)
(** ** The user service *)
(* ================================================================== *)

Module UserProofs.

Import UserService JSFacts Props.

(** *** Lookups and positions *)

Lemma findIndex_find {A} (f : A -> bool) (l : list A) :
  match findIndex f l with
  | Some k => exists x l1 l2,
                l = l1 ++ x :: l2 /\ List.length l1 = k /\ f x = true /\
                find f l = Some x /\ nth_error l k = Some x /\
                forall y, In y l1 -> f y = false
  | None => find f l = None /\ forall y, In y l -> f y = false
  end.
Proof.
  induction l as [|x l IH]; cbn [findIndex find].
  - split; [reflexivity | intros y []].
  - destruct (f x) eqn:E.
    + exists x, [], l. repeat split; auto. intros y [].
    + destruct (findIndex f l) as [k|].
      * destruct IH as [x0 [l1 [l2 [-> [Hk [Hx [Hf [Hn Hb]]]]]]]].
        exists x0, (x :: l1), l2. cbn. repeat split; auto.
        intros y [<- | Hy]; auto.
      * destruct IH as [Hf Hb]. split; [exact Hf|].
        intros y [<- | Hy]; auto.
Qed.

Lemma replaceAt_middle {A} (l1 l2 : list A) (a x : A) :
  replaceAt (List.length l1) x (l1 ++ a :: l2) = l1 ++ x :: l2.
Proof. induction l1 as [|h l1 IH]; cbn; [|rewrite IH]; reflexivity. Qed.

Lemma removeAt_middle {A} (l1 l2 : list A) (a : A) :
  removeAt (List.length l1) (l1 ++ a :: l2) = l1 ++ l2.
Proof. induction l1 as [|h l1 IH]; cbn; [|rewrite IH]; reflexivity. Qed.

Lemma idEqb_iff (i : string) (u : User) :
  String.eqb (id u) i = true <-> id u = i.
Proof. apply String.eqb_eq. Qed.

Lemma find_id_app (i : string) (l1 l2 : list User) :
  find (fun u => String.eqb (id u) i) (l1 ++ l2) =
  match find (fun u => String.eqb (id u) i) l1 with
  | Some u => Some u
  | None => find (fun u => String.eqb (id u) i) l2
  end.
Proof.
  induction l1 as [|h l1 IH]; cbn; [reflexivity|].
  destruct (String.eqb (id h) i); [reflexivity | exact IH].
Qed.

Lemma find_id_none (i : string) (l : list User) :
  find (fun u => String.eqb (id u) i) l = None <-> ~ In i (map id l).
Proof.
  induction l as [|h l IH]; cbn.
  - tauto.
  - destruct (String.eqb (id h) i) eqn:E.
    + apply String.eqb_eq in E. split; [discriminate | tauto].
    + apply String.eqb_neq in E. rewrite IH. tauto.
Qed.

Lemma find_username_none (n : string) (l : list User) :
  find (fun u => String.eqb (username u) n) l = None <-> ~ In n (map username l).
Proof.
  induction l as [|h l IH]; cbn.
  - tauto.
  - destruct (String.eqb (username h) n) eqn:E.
    + apply String.eqb_eq in E. split; [discriminate | tauto].
    + apply String.eqb_neq in E. rewrite IH. tauto.
Qed.

Lemma NoDup_middle {A} (l1 l2 : list A) (x : A) :
  NoDup (l1 ++ l2) -> ~ In x (l1 ++ l2) -> NoDup (l1 ++ x :: l2).
Proof.
  intros Hn Hx. induction l1 as [|h l1 IH]; cbn in *.
  - constructor; assumption.
  - inversion Hn as [|? ? Hh Hn']; subst. constructor.
    + rewrite in_app_iff in *. cbn. intuition congruence.
    + apply IH; [exact Hn' | tauto].
Qed.

(** *** Creating a user *)

(** X19. [POST /api/users] answers 400 exactly when [username], [name] or
    [email] is missing or empty, 409 exactly when all three are given
    and the user name is taken, and 201 otherwise; the store changes
    only with a 201. *)
Theorem create_rejects_without_change
    (uuid now : string) (input : UserInput) (users : Users) :
  (statusCode (snd (createUser uuid now input users)) = 400 <->
   truthy (in_username input) = false \/ truthy (in_name input) = false \/
   truthy (in_email input) = false) /\
  (statusCode (snd (createUser uuid now input users)) = 409 <->
   truthy (in_username input) = true /\ truthy (in_name input) = true /\
   truthy (in_email input) = true /\
   In (toStr (in_username input)) (map username users)) /\
  (statusCode (snd (createUser uuid now input users)) = 400 \/
   statusCode (snd (createUser uuid now input users)) = 409 \/
   statusCode (snd (createUser uuid now input users)) = 201) /\
  (statusCode (snd (createUser uuid now input users)) <> 201 ->
   fst (createUser uuid now input users) = users).
Proof.
  unfold createUser.
  destruct (truthy (in_username input)), (truthy (in_name input)),
    (truthy (in_email input)); cbn [negb orb];
    try (cbn; intuition congruence).
  pose proof (find_username_none (toStr (in_username input)) users) as Hf.
  destruct (find _ users) as [u|]; cbn.
  - assert (Hin : In (toStr (in_username input)) (map username users)).
    { destruct (in_dec string_dec (toStr (in_username input)) (map username users))
        as [Hi | Hi]; [exact Hi|].
      apply Hf in Hi. discriminate. }
    intuition congruence.
  - assert (Hni : ~ In (toStr (in_username input)) (map username users))
      by (apply Hf; reflexivity).
    intuition congruence.
Qed.

(** X20. A user created with the three required fields, a user name that is
    free and an identifier that is new is appended to the store with the
    fields as given: the role and the status that are given, the role
    [user] and the status [active] when none is given. It can be read
    back by its identifier, and every other lookup answers as
    before. *)
Theorem created_user_can_be_read_back
    (uuid now : string) (input : UserInput) (users : Users) :
  truthy (in_username input) = true ->
  truthy (in_name input) = true ->
  truthy (in_email input) = true ->
  ~ In (toStr (in_username input)) (map username users) ->
  ~ In uuid (map id users) ->
  exists u,
    createUser uuid now input users = (users ++ [u], mkResponse 201 (UserDetail u)) /\
    getUser uuid (users ++ [u]) = mkResponse 200 (UserDetail u) /\
    id u = uuid /\
    Some (username u) = in_username input /\
    Some (name u) = in_name input /\
    Some (email u) = in_email input /\
    (forall r, in_role input = Some r -> role u = r) /\
    (in_role input = None -> role u = "user") /\
    (forall s, in_status input = Some s -> status u = s) /\
    (in_status input = None -> status u = "active") /\
    createdAt u = now /\ updatedAt u = None /\
    (forall i, i <> uuid -> getUser i (users ++ [u]) = getUser i users).
Proof.
  intros Hu Hn He Hfree Hnew. unfold createUser. rewrite Hu, Hn, He.
  cbn [negb orb].
  apply find_username_none in Hfree. rewrite Hfree.
  eexists. split; [reflexivity|].
  apply truthy_iff in Hu, Hn, He.
  destruct Hu as [un [Eu _]], Hn as [nn [En _]], He as [en [Ee _]].
  rewrite Eu, En, Ee. cbn [toStr id username name email role status createdAt updatedAt].
  apply find_id_none in Hnew.
  repeat split; auto.
  - unfold getUser. rewrite find_id_app, Hnew. cbn. rewrite String.eqb_refl.
    reflexivity.
  - intros r ->. reflexivity.
  - intros ->. reflexivity.
  - intros s ->. reflexivity.
  - intros ->. reflexivity.
  - intros i Hi. unfold getUser. rewrite find_id_app.
    destruct (find (fun u => String.eqb (id u) i) users); [reflexivity|].
    cbn. apply String.eqb_neq in Hi. rewrite String.eqb_sym, Hi. reflexivity.
Qed.

(** The four initial users, a fifth one created with the role [admin]
    and the status [inactive]. *)
Lemma created_user_can_be_read_back_witness :
  exists u,
    createUser "id-5" "2024-03-01T08:00:00.000Z" UserFixture.adminInput UserFixture.store =
      (UserFixture.store ++ [u], mkResponse 201 (UserDetail u)) /\
    getUser "id-5" (UserFixture.store ++ [u]) = mkResponse 200 (UserDetail u) /\
    id u = "id-5" /\
    Some (username u) = Some "sunqi" /\
    Some (name u) = Some "孙七" /\
    Some (email u) = Some "sunqi@cancer.com" /\
    (forall r, Some "admin" = Some r -> role u = r) /\
    (Some "admin" = None -> role u = "user") /\
    (forall s, Some "inactive" = Some s -> status u = s) /\
    (Some "inactive" = None -> status u = "active") /\
    createdAt u = "2024-03-01T08:00:00.000Z" /\ updatedAt u = None /\
    (forall i, i <> "id-5" ->
               getUser i (UserFixture.store ++ [u]) = getUser i UserFixture.store).
Proof.
  apply (@created_user_can_be_read_back "id-5" "2024-03-01T08:00:00.000Z"
           UserFixture.adminInput UserFixture.store);
    try reflexivity; cbn; intuition discriminate.
Defined.

(** *** Deleting a user *)

Lemma find_all_false {A} (f : A -> bool) (l : list A) :
  (forall y, In y l -> f y = false) -> find f l = None.
Proof.
  induction l as [|x l IH]; intros H; cbn; [reflexivity|].
  rewrite (H x (or_introl eq_refl)). apply IH. intros y Hy. apply H. right. exact Hy.
Qed.

Lemma find_id_skip (j : string) (l1 l2 : list User) (x y : User) :
  id x <> j -> id y <> j ->
  find (fun u => String.eqb (id u) j) (l1 ++ x :: l2) =
  find (fun u => String.eqb (id u) j) (l1 ++ y :: l2).
Proof.
  intros Hx Hy. rewrite !find_id_app. cbn.
  apply String.eqb_neq in Hx, Hy. rewrite Hx, Hy. reflexivity.
Qed.

(** X21. In a store whose identifiers are distinct, [DELETE /api/users/:id]
    of a user that exists answers with that user and takes exactly it
    out: the store is one shorter, the identifier is no longer found and
    every other lookup answers as before. For an identifier that is not
    in the store the answer is 404 and the store is unchanged. *)
Theorem delete_removes_exactly_one (i : string) (users : Users) :
  NoDup (map id users) ->
  (In i (map id users) ->
   exists u,
     In u users /\ id u = i /\
     snd (deleteUser i users) = mkResponse 200 (DeletedBody (Some u)) /\
     getUser i (fst (deleteUser i users)) = notFound i /\
     S (List.length (fst (deleteUser i users))) = List.length users /\
     forall j, j <> i ->
               getUser j (fst (deleteUser i users)) = getUser j users) /\
  (~ In i (map id users) -> deleteUser i users = (users, notFound i)).
Proof.
  intros Hnd. unfold deleteUser.
  pose proof (findIndex_find (fun u => String.eqb (id u) i) users) as H.
  destruct (findIndex (fun u => String.eqb (id u) i) users) as [k|].
  - destruct H as [x [l1 [l2 [-> [Hk [Hx [Hf [Hn Hb]]]]]]]].
    apply String.eqb_eq in Hx. split.
    + intros _. exists x. rewrite Hn. subst k. rewrite removeAt_middle.
      cbn [fst snd]. repeat split; auto.
      * apply in_or_app. right. left. reflexivity.
      * unfold getUser. rewrite find_id_app, (find_all_false _ _ Hb).
        rewrite map_app in Hnd. cbn in Hnd. apply NoDup_remove_2 in Hnd.
        assert (Hl2 : ~ In i (map id l2)).
        { intros Hin. apply Hnd. apply in_or_app. right. rewrite Hx. exact Hin. }
        apply find_id_none in Hl2. rewrite Hl2. reflexivity.
      * rewrite !length_app. cbn. lia.
      * intros j Hj. unfold getUser. rewrite !find_id_app. cbn.
        assert (E : String.eqb (id x) j = false)
          by (apply String.eqb_neq; congruence).
        rewrite E. reflexivity.
    + intros Hno. exfalso. apply Hno. rewrite map_app. apply in_or_app.
      right. left. exact Hx.
  - destruct H as [Hf _]. split.
    + intros Hin. apply find_id_none in Hf. contradiction.
    + reflexivity.
Qed.

(** Deleting the administrator from the initial store. *)
Lemma delete_removes_exactly_one_witness :
  exists u,
    In u UserFixture.store /\ id u = "id-1" /\
    snd (deleteUser "id-1" UserFixture.store) =
      mkResponse 200 (DeletedBody (Some u)) /\
    getUser "id-1" (fst (deleteUser "id-1" UserFixture.store)) = notFound "id-1" /\
    S (List.length (fst (deleteUser "id-1" UserFixture.store))) =
      List.length UserFixture.store /\
    forall j, j <> "id-1" ->
              getUser j (fst (deleteUser "id-1" UserFixture.store)) =
              getUser j UserFixture.store.
Proof.
  apply (proj1 (@delete_removes_exactly_one "id-1" UserFixture.store
                  ltac:(cbn; repeat constructor; cbn; intuition discriminate))).
  cbn. auto.
Defined.

(** *** Updating a user *)

(** X22. [PUT /api/users/:id] of an identifier that is not in the store
    answers 404; an answer other than 200 leaves the store as it was.
    With a 200 the first user of that identifier is overwritten in
    place: identifier and creation time are kept, [updatedAt] is set,
    each of the five fields takes the value given and keeps its old
    value when none, or an empty one, is given; the user is read back
    as answered, the store keeps its length and every other lookup
    answers as before. *)
Theorem update_changes_given_fields_only
    (now i : string) (input : UserInput) (users : Users) :
  (~ In i (map id users) -> updateUser now i input users = (users, notFound i)) /\
  (statusCode (snd (updateUser now i input users)) <> 200 ->
   fst (updateUser now i input users) = users) /\
  (statusCode (snd (updateUser now i input users)) = 200 ->
   exists old,
     find (fun u => String.eqb (id u) i) users = Some old /\
     snd (updateUser now i input users) =
       mkResponse 200 (UserDetail (updatedFrom now input old)) /\
     id (updatedFrom now input old) = i /\
     createdAt (updatedFrom now input old) = createdAt old /\
     updatedAt (updatedFrom now input old) = Some now /\
     takes (in_username input) (username old) (username (updatedFrom now input old)) /\
     takes (in_name input) (name old) (name (updatedFrom now input old)) /\
     takes (in_email input) (email old) (email (updatedFrom now input old)) /\
     takes (in_role input) (role old) (role (updatedFrom now input old)) /\
     takes (in_status input) (status old) (status (updatedFrom now input old)) /\
     getUser i (fst (updateUser now i input users)) =
       mkResponse 200 (UserDetail (updatedFrom now input old)) /\
     List.length (fst (updateUser now i input users)) = List.length users /\
     forall j, j <> i ->
               getUser j (fst (updateUser now i input users)) = getUser j users).
Proof.
  unfold updateUser.
  pose proof (findIndex_find (fun u => String.eqb (id u) i) users) as H.
  destruct (findIndex (fun u => String.eqb (id u) i) users) as [k|].
  - destruct H as [old [l1 [l2 [-> [Hk [Hx [Hf [Hn Hb]]]]]]]].
    apply String.eqb_eq in Hx. rewrite Hn.
    match goal with |- context [if ?c then _ else _] => destruct c end.
    + cbn. repeat split; auto; try discriminate.
      intros Hno. exfalso. apply Hno. rewrite map_app. apply in_or_app.
      right. left. exact Hx.
    + subst k. rewrite replaceAt_middle. cbn [fst snd statusCode].
      split; [|split].
      * intros Hno. exfalso. apply Hno. rewrite map_app. apply in_or_app.
        right. left. exact Hx.
      * intros Hne. exfalso. apply Hne. reflexivity.
      * intros _. exists old. rewrite Hf.
        assert (Htakes : forall v o, takes v o (spread v o)).
        { intros v o. unfold takes, spread. split; intros E; rewrite E.
          - apply truthy_iff in E. destruct E as [x [-> _]]. reflexivity.
          - reflexivity. }
        split; [reflexivity|]. split; [reflexivity|]. split; [exact Hx|].
        split; [reflexivity|]. split; [reflexivity|].
        do 5 (split; [apply Htakes|]).
        split; [|split].
        -- unfold getUser. rewrite find_id_app, (find_all_false _ _ Hb).
           cbn. apply String.eqb_eq in Hx. rewrite Hx. reflexivity.
        -- rewrite !length_app. reflexivity.
        -- intros j Hj. unfold getUser.
           rewrite (@find_id_skip j l1 l2 (updatedFrom now input old) old);
             [reflexivity | cbn; congruence | congruence].
  - destruct H as [Hf _]. cbn. repeat split; auto; discriminate.
Qed.

(** *** The store stays consistent *)

Lemma create_keeps_consistent (uuid now : string) (input : UserInput) (users : Users) :
  consistent users -> ~ In uuid (map id users) ->
  consistent (fst (createUser uuid now input users)).
Proof.
  intros [Hi Hu] Hfresh. unfold createUser.
  destruct (negb (truthy (in_username input)) || negb (truthy (in_name input)) ||
            negb (truthy (in_email input))); [split; assumption|].
  destruct (find _ users) as [u|] eqn:E; [split; assumption|].
  apply find_username_none in E. cbn [fst]. unfold consistent.
  rewrite !map_app. cbn [map]. split.
  - apply NoDup_middle; rewrite app_nil_r; assumption.
  - apply NoDup_middle; rewrite app_nil_r; assumption.
Qed.

Lemma delete_keeps_consistent (i : string) (users : Users) :
  consistent users -> consistent (fst (deleteUser i users)).
Proof.
  intros [Hi Hu]. unfold deleteUser.
  pose proof (findIndex_find (fun u => String.eqb (id u) i) users) as H.
  destruct (findIndex (fun u => String.eqb (id u) i) users) as [k|];
    [|split; assumption].
  destruct H as [x [l1 [l2 [-> [Hk _]]]]]. subst k.
  rewrite removeAt_middle. cbn [fst]. unfold consistent.
  rewrite !map_app in *. cbn [map] in *.
  split; eapply NoDup_remove_1; eassumption.
Qed.

Lemma update_keeps_consistent (now i : string) (input : UserInput) (users : Users) :
  consistent users -> consistent (fst (updateUser now i input users)).
Proof.
  intros [Hi Hu]. unfold updateUser.
  pose proof (findIndex_find (fun u => String.eqb (id u) i) users) as H.
  destruct (findIndex (fun u => String.eqb (id u) i) users) as [k|];
    [|split; assumption].
  destruct H as [old [l1 [l2 [-> [Hk [Hx [_ [Hn _]]]]]]]].
  apply String.eqb_eq in Hx. rewrite Hn. subst k.
  destruct (truthy (in_username input) &&
            negb (String.eqb (toStr (in_username input)) (username old))) eqn:Hc;
    cbn [andb].
  - (* a user name is given and it is a new one *)
    destruct (find _ (l1 ++ old :: l2)) as [other|] eqn:Ef; [split; assumption|].
    rewrite replaceAt_middle. cbn [fst]. unfold consistent.
    rewrite !map_app in *. cbn [map] in *. split; [exact Hi|].
    apply andb_true_iff in Hc. destruct Hc as [Ht _].
    unfold updatedFrom, spread. cbn [username]. rewrite Ht.
    apply NoDup_middle; [eapply NoDup_remove_1; eassumption|].
    intros Hin. rewrite <- map_app in Hin. apply in_map_iff in Hin.
    destruct Hin as [y [Hy Hyin]].
    assert (Hyall : In y (l1 ++ old :: l2)).
    { apply in_app_iff in Hyin. apply in_app_iff. cbn. tauto. }
    pose proof (find_none _ _ Ef y Hyall) as Hnone. cbn beta in Hnone.
    apply String.eqb_eq in Hy. rewrite Hy in Hnone. cbn [andb] in Hnone.
    apply negb_false_iff, String.eqb_eq in Hnone.
    apply NoDup_remove_2 in Hi. apply Hi. rewrite <- map_app.
    rewrite Hx, <- Hnone. apply in_map. exact Hyin.
  - (* the user name stays *)
    rewrite replaceAt_middle. cbn [fst]. unfold consistent.
    rewrite !map_app in *. cbn [map] in *. split; [exact Hi|].
    assert (E : username (updatedFrom now input old) = username old).
    { unfold updatedFrom, spread. cbn [username].
      destruct (truthy (in_username input)); [|reflexivity].
      cbn in Hc. apply negb_false_iff, String.eqb_eq in Hc. exact Hc. }
    rewrite E. exact Hu.
Qed.

(** X23. Identifiers and user names stay pairwise distinct: from a store in
    which they are, any sequence of create, update and delete requests,
    each create with an identifier that is new at that moment, leads to
    a store in which they are. *)
Theorem store_stays_consistent (ops : list Op) (users : Users) :
  consistent users ->
  freshIds ops users ->
  consistent (run ops users).
Proof.
  revert users; induction ops as [|op ops IH]; intros users Hc Hf; [exact Hc|].
  destruct Hf as [Hop Hrest]. cbn [run]. apply IH; [|exact Hrest].
  destruct op as [uuid now input | now i input | i]; cbn [applyOp].
  - apply create_keeps_consistent; assumption.
  - apply update_keeps_consistent; assumption.
  - apply delete_keeps_consistent; assumption.
Qed.

(** The initial store, after a creation, a renaming and a deletion. *)
Lemma store_stays_consistent_witness :
  consistent
    (run [ Create "id-5" "2024-03-01T08:00:00.000Z" UserFixture.newInput;
           Update "2024-03-02T08:00:00.000Z" "id-2" UserFixture.renameInput;
           Delete "id-3" ]
       UserFixture.store).
Proof.
  apply (@store_stays_consistent
           [ Create "id-5" "2024-03-01T08:00:00.000Z" UserFixture.newInput;
             Update "2024-03-02T08:00:00.000Z" "id-2" UserFixture.renameInput;
             Delete "id-3" ]
           UserFixture.store).
  - split; cbn; repeat constructor; cbn; intuition discriminate.
  - cbn. intuition discriminate.
Defined.

(** *** Pages of the listing *)

Lemma slice_window {A} (l : list A) (start size : Z) :
  (0 <= start)%Z -> (0 <= size)%Z ->
  slice l start (start + size) =
  firstn (Z.to_nat size) (skipn (Z.to_nat start) l).
Proof.
  intros Hs Hz. unfold slice, clampIndex.
  assert (E1 : (start <? 0)%Z = false) by (apply Z.ltb_ge; lia).
  assert (E2 : (start + size <? 0)%Z = false) by (apply Z.ltb_ge; lia).
  rewrite E1, E2.
  destruct (Z_lt_le_dec start (Z.of_nat (List.length l))) as [Hlt | Hge].
  - rewrite (Z.min_l start) by lia.
    destruct (Z_le_gt_dec (start + size) (Z.of_nat (List.length l))) as [Hin | Hout].
    + rewrite Z.min_l by lia. f_equal. lia.
    + rewrite Z.min_r by lia.
      rewrite !firstn_all2; [reflexivity | |]; rewrite length_skipn; lia.
  - rewrite (Z.min_r start) by lia.
    rewrite !(skipn_all2 l) by lia. rewrite !firstn_nil. reflexivity.
Qed.

Lemma firstn_then_next {A} (a b : nat) (l : list A) :
  firstn a l ++ firstn b (skipn a l) = firstn (a + b) l.
Proof.
  revert l; induction a as [|a IH]; intros l; [reflexivity|].
  destruct l as [|x l]; cbn.
  - rewrite firstn_nil. reflexivity.
  - rewrite IH. reflexivity.
Qed.

Lemma page_data {F : CaseFolding} (page pageSize : Int53)
    (search role status : option string) (users : Users) :
  (1 <= int53 page)%Z -> (0 < int53 pageSize)%Z ->
  dataOf (getUsers (mkListQuery (Some page) (Some pageSize) search role status) users) =
  firstn (Z.to_nat (int53 pageSize))
    (skipn (Z.to_nat ((int53 page - 1) * int53 pageSize))
       (filterUsers (mkListQuery None None search role status) users)).
Proof.
  intros Hp Hs. unfold dataOf, getUsers. cbn [body pageOf pageSizeOf q_page q_pageSize].
  rewrite slice_window by nia. reflexivity.
Qed.

Lemma dataOfPages_firstn {F : CaseFolding} (n : nat) (pages : list Int53)
    (pageSize : Int53) (search role status : option string) (users : Users) :
  (0 < int53 pageSize)%Z ->
  map int53 pages = firstPages n ->
  dataOfPages pages pageSize search role status users =
  firstn (n * Z.to_nat (int53 pageSize))
    (filterUsers (mkListQuery None None search role status) users).
Proof.
  intros Hs. revert pages. induction n as [|n IH]; intros pages Hp.
  - destruct pages; [reflexivity | discriminate].
  - unfold firstPages in Hp. rewrite seq_S, map_app in Hp.
    apply map_eq_app in Hp. destruct Hp as [p1 [p2 [-> [H1 H2]]]].
    cbn [map] in H2. apply map_eq_cons in H2.
    destruct H2 as [p [tl [-> [Hp Htl]]]].
    destruct tl; [|discriminate].
    unfold dataOfPages in *. rewrite flat_map_app. cbn [flat_map].
    rewrite app_nil_r, (IH p1 H1), page_data by lia.
    replace (Z.to_nat ((int53 p - 1) * int53 pageSize))
      with (n * Z.to_nat (int53 pageSize)) by nia.
    rewrite firstn_then_next. f_equal. lia.
Qed.

(** X24. With a positive page size, the answer to [GET /api/users] reports,
    whatever page is asked for, the page and the page size asked for,
    the number [total] of users that pass the filters and
    [totalPages], the least number of pages of that size that hold
    [total] users (the ceiling of [total / pageSize]); a page holds at
    most [pageSize] users, the pages [1] to [totalPages] one after the
    other are exactly the filtered list, a page after the last is
    empty, and [totalPages] is 0 exactly when no user passes the
    filters. *)
Theorem pages_partition_the_listing {F : CaseFolding}
    (pageSize : Int53) (search role status : option string) (users : Users) :
  (0 < int53 pageSize)%Z ->
  exists n : nat,
    (Z.of_nat (List.length
                 (filterUsers (mkListQuery None None search role status) users))
       <= Z.of_nat n * int53 pageSize
       < Z.of_nat (List.length
                     (filterUsers (mkListQuery None None search role status) users))
         + int53 pageSize)%Z /\
    (forall page,
       body (getUsers (mkListQuery (Some page) (Some pageSize) search role status) users) =
       UserList
         (dataOf (getUsers (mkListQuery (Some page) (Some pageSize) search role status) users))
         (int53 page) (int53 pageSize)
         (List.length (filterUsers (mkListQuery None None search role status) users))
         (Some (Z.of_nat n))) /\
    (forall pages,
       map int53 pages = firstPages n ->
       dataOfPages pages pageSize search role status users =
       filterUsers (mkListQuery None None search role status) users) /\
    (forall page, (1 <= int53 page)%Z ->
       List.length
         (dataOf (getUsers (mkListQuery (Some page) (Some pageSize) search role status) users))
       <= Z.to_nat (int53 pageSize)) /\
    (forall page, (Z.of_nat n < int53 page)%Z ->
       dataOf (getUsers (mkListQuery (Some page) (Some pageSize) search role status) users)
       = []) /\
    (n = 0 <->
     filterUsers (mkListQuery None None search role status) users = []).
Proof.
  intros Hs.
  set (l := filterUsers (mkListQuery None None search role status) users).
  set (t := Z.of_nat (List.length l)).
  set (ps := int53 pageSize) in *.
  pose proof (Z.div_mod (- t) ps ltac:(lia)) as Hdm.
  pose proof (Z.mod_pos_bound (- t) ps Hs) as Hmod.
  assert (Ht : (0 <= t)%Z) by (subst t; lia).
  assert (Hq : (0 <= - (- t / ps))%Z) by nia.
  exists (Z.to_nat (- (- t / ps))).
  rewrite Z2Nat.id by exact Hq.
  assert (Hcover : (t <= - (- t / ps) * ps)%Z) by nia.
  assert (Htight : (- (- t / ps) * ps < t + ps)%Z) by nia.
  split; [lia|].
  split; [|split; [|split; [|split]]].
  - intros page. unfold getUsers, dataOf, totalPagesOf.
    cbn [body pageOf pageSizeOf q_page q_pageSize]. fold ps.
    assert (E : (ps =? 0)%Z = false) by (apply Z.eqb_neq; lia).
    rewrite E. reflexivity.
  - intros pages Hp.
    rewrite (@dataOfPages_firstn F (Z.to_nat (- (- t / ps))) pages pageSize
               search role status users Hs Hp).
    fold l. apply firstn_all2. subst t. fold ps. nia.
  - intros page Hp. rewrite page_data by assumption.
    rewrite length_firstn. lia.
  - intros page Hp. rewrite page_data by (fold ps; lia). fold l.
    rewrite skipn_all2; [apply firstn_nil|]. subst t. fold ps. nia.
  - split.
    + intros H. apply length_zero_iff_nil. subst t. nia.
    + intros H. fold l in H. subst t. rewrite H. reflexivity.
Qed.

Section PageExamples.

#[local] Existing Instance asciiFolding.

(** The four initial users in pages of three: two pages, the first of
    three users and the second of one. *)
Lemma pages_partition_the_listing_witness :
  exists n : nat,
    (Z.of_nat (List.length
                 (filterUsers (mkListQuery None None None None None) UserFixture.store))
       <= Z.of_nat n * 3
       < Z.of_nat (List.length
                     (filterUsers (mkListQuery None None None None None) UserFixture.store))
         + 3)%Z /\
    (forall page,
       body (getUsers (mkListQuery (Some page) (Some UserFixture.three) None None None)
               UserFixture.store) =
       UserList
         (dataOf (getUsers (mkListQuery (Some page) (Some UserFixture.three) None None None)
                    UserFixture.store))
         (int53 page) 3%Z
         (List.length (filterUsers (mkListQuery None None None None None) UserFixture.store))
         (Some (Z.of_nat n))) /\
    (forall pages,
       map int53 pages = firstPages n ->
       dataOfPages pages UserFixture.three None None None UserFixture.store =
       filterUsers (mkListQuery None None None None None) UserFixture.store) /\
    (forall page, (1 <= int53 page)%Z ->
       List.length
         (dataOf (getUsers (mkListQuery (Some page) (Some UserFixture.three) None None None)
                    UserFixture.store))
       <= Z.to_nat 3) /\
    (forall page, (Z.of_nat n < int53 page)%Z ->
       dataOf (getUsers (mkListQuery (Some page) (Some UserFixture.three) None None None)
                 UserFixture.store)
       = []) /\
    (n = 0 <->
     filterUsers (mkListQuery None None None None None) UserFixture.store = []).
Proof.
  apply (@pages_partition_the_listing asciiFolding UserFixture.three
           None None None UserFixture.store).
  reflexivity.
Defined.

(** The second page of three of the four initial users. *)
Example second_page_of_three :
  getUsers (mkListQuery (Some UserFixture.two) (Some UserFixture.three) None None None)
    (initialUsers "id-1" "id-2" "id-3" "id-4") =
  mkResponse 200
    (UserList
       [ mkUser "id-4" "user3" "王五" "wangwu@cancer.com" "user" "inactive"
           "2024-02-15T00:00:00.000Z" None ]
       2 3 4 (Some 2%Z)).
Proof. reflexivity. Qed.

End PageExamples.

(** *** The user page against the user API *)

(** X25. The list the user page shows for its role and status selectors and
    its search box is the list [GET /api/users] filters for the same
    role and status (none for the selector ['all']) and the same search
    text, before it cuts a page: page and API apply the same three
    filters in a different order. *)
Theorem user_page_filter_agrees_with_api {F : CaseFolding}
    (users : Users) (filterRole filterStatus searchQuery : string)
    (page pageSize : option Int53) :
  filterRole <> EmptyString ->
  filterStatus <> EmptyString ->
  UserUI.filteredUsers users filterRole filterStatus searchQuery =
  filterUsers
    (mkListQuery page pageSize (Some searchQuery)
       (selected filterRole) (selected filterStatus)) users.
Proof.
  intros Hr Hs.
  destruct filterRole as [|cr fr]; [congruence|].
  destruct filterStatus as [|cs fs]; [congruence|].
  unfold UserUI.filteredUsers, filterUsers, selected.
  cbn [q_search q_role q_status].
  destruct (String.eqb (String cr fr) "all"), (String.eqb (String cs fs) "all"),
    (truthy (Some searchQuery));
    cbn [negb truthy toStr];
    rewrite ?MarketProofs.filter_filter_andb; try reflexivity;
    apply filter_ext; intros u;
    destruct (String.eqb (role u) (String cr fr)),
      (String.eqb (status u) (String cs fs)),
      (matchesSearch (toLowerCase searchQuery) u); reflexivity.
Qed.

Section UserPageExamples.

#[local] Existing Instance asciiFolding.

(** The page with the role selector on [user], the status selector on
    ['all'] and the search text [ZHANG]. *)
Lemma user_page_filter_agrees_with_api_witness :
  UserUI.filteredUsers UserFixture.store "user" "all" "ZHANG" =
  filterUsers (mkListQuery None None (Some "ZHANG") (Some "user") None)
    UserFixture.store.
Proof.
  apply (@user_page_filter_agrees_with_api asciiFolding UserFixture.store
           "user" "all" "ZHANG" None None); discriminate.
Defined.

End UserPageExamples.

(** *** Counts *)

Lemma disjoint_counts {A} (f g : A -> bool) (l : list A) :
  (forall x, f x = true -> g x = false) ->
  List.length (filter f l) + List.length (filter g l) <= List.length l.
Proof.
  intros H. induction l as [|x l IH]; [reflexivity|].
  cbn. destruct (f x) eqn:E.
  - rewrite (H x E). cbn. lia.
  - destruct (g x); cbn; lia.
Qed.

(** The three places that count users agree: [total] of
    [GET /api/stats], [usersCount] of [GET /health] and [total] of an
    unfiltered [GET /api/users] are the size of the store; active and
    inactive users together do not exceed it, nor do administrators and
    plain users. *)
Theorem user_counts_agree {F : CaseFolding} (users : Users) :
  exists active inactive admins plainUsers,
    getStats users =
      mkResponse 200
        (StatsBody (List.length users) active inactive admins plainUsers) /\
    active + inactive <= List.length users /\
    admins + plainUsers <= List.length users /\
    getHealth users = mkResponse 200 (HealthBody (List.length users)) /\
    (forall page pageSize,
       exists data p s totalPages,
         body (getUsers (mkListQuery page pageSize None None None) users) =
         UserList data p s (List.length users) totalPages).
Proof.
  do 4 eexists. split; [reflexivity|].
  split; [|split; [|split; [reflexivity|]]].
  - apply disjoint_counts. intros u H. apply String.eqb_eq in H.
    rewrite H. reflexivity.
  - apply disjoint_counts. intros u H. apply String.eqb_eq in H.
    rewrite H. reflexivity.
  - intros page pageSize. do 4 eexists. reflexivity.
Qed.

End UserProofs.

(* ================================================================== *)
(** ** The main application *)
(* ================================================================== *)

Module MainAppProofs.

Import MainApp JSFacts Props.

Lemma givenOr_orElse (a b : option string) : givenOr a b (orElse a b).
Proof.
  unfold givenOr, orElse. split; intros E; rewrite E; reflexivity.
Qed.


(** The two hardcoded defaults become two applications; a registry
    record whose [frontend] block has an empty [entry] becomes an
    application without an entry. *)
Example apps_of_the_defaults :
  map a_entry (transformModulesToApps "http://localhost:3000" getDefaultModules) =
    [ Some "http://localhost:8081"; Some "http://localhost:8082" ] /\
  map a_activeRule (transformModulesToApps "http://localhost:3000" getDefaultModules) =
    [ Some "/module-market"; Some "/user" ] /\
  transformModulesToApps "http://localhost:3000"
    [ mkModuleConfig (Some "module-z") (Some "Z") None None
        (Some (mkFrontendConfig (Some "") None (Some "/z"))) ] =
    [ mkMicroApp (Some "module-z") None "#subapp-container" (Some "/z")
        (mkProps "http://localhost:3000" (Some "module-z") (Some "Z")) ].
Proof. repeat split; reflexivity. Qed.

End MainAppProofs.

(* ================================================================== *)
(** ** From the descriptor store to the route table *)
(* ================================================================== *)

Module EndToEndProofs.

Import Market Gateway Spec Fixture JSFacts Props.

Lemma ruleOf_annotate (modulePath : string) (e : Dirent) (d : Module) :
  ruleOf (annotate modulePath e d) = ruleOf d.
Proof. reflexivity. Qed.

(** X18. A gateway that starts on the list the market answers with after
    scanning a store has a route for every descriptor of the store that
    parses and has a backend URL: the route the descriptor alone
    determines, whatever directory it stands in. *)
Theorem descriptor_reaches_the_route_table {F : CaseFolding}
    (dir : string) (entries : list Dirent) (env : Env) (snapshot : list Module)
    (e : Dirent) (d : Module) (r : RouteRule) :
  getModules (mkQuery None None None) (current (init (mkFS dir (Ok entries)))) =
    Market.mkResponse 200 (ModuleList snapshot) ->
  fetch env = Ok snapshot ->
  In e entries ->
  scanned e = true ->
  moduleJson e = Parsed d ->
  In r (ruleOf d) ->
  In r (routeTable (app (startGateway env))).
Proof.
  intros Hlist Hfetch Hin Hs Hp Hr.
  cbn in Hlist. injection Hlist as <-.
  rewrite GatewayProofs.startGateway_routeTable.
  unfold fetchModulesFromMarket. rewrite Hfetch.
  unfold build. apply in_flat_map.
  exists (annotate (join dir (d_name e)) e d). split.
  - unfold init. rewrite MarketProofs.scanModules_readable. cbn [fst].
    apply (MarketProofs.scanEntries_keeps dir entries e Hin Hs Hp).
  - rewrite ruleOf_annotate. exact Hr.
Qed.

(** Module-x, scanned from the store, has its route in the gateway. *)
Lemma descriptor_reaches_the_route_table_witness :
  In (mkRoute "/api/x" "http://x:9000" (Some "module-x"))
     (routeTable (app (startGateway FlowFixture.envAfterScan))).
Proof.
  apply (@descriptor_reaches_the_route_table asciiFolding root bareEntries
           FlowFixture.envAfterScan (init bareStore)
           (dirent "module-x" (Parsed moduleX)) moduleX
           (mkRoute "/api/x" "http://x:9000" (Some "module-x"))).
  - reflexivity.
  - reflexivity.
  - left. reflexivity.
  - reflexivity.
  - reflexivity.
  - left. reflexivity.
Defined.

End EndToEndProofs.
